(** * AI candidate assessment platform: clients and session core

  The repository ships three browser clients (the HR dashboard
  [hr/page.tsx], the chat interview page and the voice interview page)
  that talk to a session orchestrator over HTTP and WebSockets.  The
  clients are embedded from their TypeScript source; the orchestrator
  itself, whose code is not part of the frontend tree, is modelled from
  the written specification in [Module Core]. *)

From Stdlib Require Import PrimFloat NArith ZArith Ascii String List.
From Stdlib Require Import Sorting.Sorted.
From stdpp Require Import base option list strings gmap.


(** ** JavaScript values *)

Module JS.

(** A JavaScript string is a sequence of UTF-16 code units. *)
Definition str := list N.

(** A string literal of the source: every character of the literals used
    here is ASCII, hence one code unit. *)
Definition lit (s : string) : str := N_of_ascii <$> list_ascii_of_string s.

(** What a variable typed [any] (the result of [JSON.parse]) may hold.
    [Ref] stands for an object or an array, known by its reference. *)
Inductive value :=
| Undefined
| Null
| Bool (b : bool)
| Num (n : float)
| Str (s : str)
| Ref (r : N).

(** [ToBoolean]: [undefined], [null], [false], [0], [-0], [NaN] and the
    empty string are falsy, everything else is truthy. *)
Definition truthy_str (s : str) : bool :=
  match s with [] => false | _ :: _ => true end.

Definition truthy_num (n : float) : bool :=
  negb (PrimFloat.eqb n 0%float || negb (PrimFloat.eqb n n)).

Definition truthy (v : value) : bool :=
  match v with
  | Undefined | Null => false
  | Bool b => b
  | Num n => truthy_num n
  | Str s => truthy_str s
  | Ref _ => true
  end.

(** [a || b] *)
Definition or_ (a b : value) : value := if truthy a then a else b.

(** [v === 'literal'] *)
Definition is_str (v : value) (l : string) : bool :=
  match v with
  | Str s => bool_decide (s = lit l)
  | _ => false
  end.

(** ECMAScript [WhiteSpace] and [LineTerminator] code units, the ones
    [String.prototype.trim] strips. *)
Definition is_white_space (c : N) : bool :=
  ((9 <=? c) && (c <=? 13) || (c =? 32) || (c =? 160) || (c =? 5760)
   || (8192 <=? c) && (c <=? 8202) || (c =? 8232) || (c =? 8233)
   || (c =? 8239) || (c =? 8287) || (c =? 12288) || (c =? 65279))%N.

Fixpoint trim_start (s : str) : str :=
  match s with
  | [] => []
  | c :: s' => if is_white_space c then trim_start s' else s
  end.

Definition trim_end (s : str) : str := rev (trim_start (rev s)).

Definition trim (s : str) : str := trim_start (trim_end s).

(** A plain object, as [JSON.parse] returns it and [JSON.stringify]
    takes it: property names to values. *)
Abbreviation object := (gmap string value).

(** [o.k]: a missing property reads as [undefined]. *)
Definition get (k : string) (o : object) : value := default Undefined (o !! k).

(** [o?.k] on a value that may be [null]. *)
Definition opt_get (k : string) (o : option object) : value :=
  match o with None => Undefined | Some o' => get k o' end.

End JS.

(** ** The HR dashboard ([hr/page.tsx]) *)

Module HR.
Import JS.

(** [CandidateWithAssessment.candidate] *)
Record Candidate := {
  candidate_id : str;
  name : str;
  email : str;
  job_role : str;
  status : str;
  created_at : str;
}.

(** [CandidateWithAssessment.latest_report]; [hr_decision] is
    [string | null]. *)
Record Report := {
  report_id : str;
  overall_score : float;
  technical_score : float;
  behavioral_score : float;
  recommendation : str;
  hr_reviewed : bool;
  hr_decision : option str;
}.

Record CandidateWithAssessment := {
  candidate : Candidate;
  latest_report : option Report;
  sessions_count : float;
}.

(** The state variable [filter] has the union type
    ['all' | 'pending' | 'approved' | 'rejected']. *)
Inductive Filter := all | pending | approved | rejected.

(** [c.latest_report?.hr_decision] *)
Definition latest_decision (c : CandidateWithAssessment) : value :=
  match latest_report c with
  | None => Undefined
  | Some r => match hr_decision r with None => Null | Some d => Str d end
  end.

(** The callback given to [candidates.filter].  Its closing
    [return true] is never reached for a [filter] of the union type. *)
Definition keeps (filter : Filter) (c : CandidateWithAssessment) : bool :=
  match filter with
  | all => true
  | pending => bool_decide (status (candidate c) = lit "hr_review")
  | approved => is_str (latest_decision c) "approve"
  | rejected => is_str (latest_decision c) "reject"
  end.

Definition filteredCandidates (candidates : list CandidateWithAssessment)
    (filter : Filter) : list CandidateWithAssessment :=
  List.filter (keeps filter) candidates.

(** The reference filter, written after the description of the four
    tabs rather than after the code. *)
Definition shown_under (filter : Filter) (c : CandidateWithAssessment) : Prop :=
  match filter with
  | all => True
  | pending => status (candidate c) = lit "hr_review"
  | approved => latest_report c ≫= hr_decision = Some (lit "approve")
  | rejected => latest_report c ≫= hr_decision = Some (lit "reject")
  end.

#[global] Instance shown_under_dec filter c : Decision (shown_under filter c).
Proof. destruct filter; simpl; apply _. Defined.

Definition reference_filter (candidates : list CandidateWithAssessment)
    (filter : Filter) : list CandidateWithAssessment :=
  match filter with
  | all => candidates
  | _ => base.filter (shown_under filter) candidates
  end.

(** The five stat cards, in the order they are rendered: the label and
    the [value] prop, [stats?.field || 0].  [stats] is what the stats
    endpoint answered, stored as parsed. *)
Definition stat_value (field : string) (stats : option object) : value :=
  or_ (opt_get field stats) (Num 0).

Definition statCards (stats : option object) : list (string * value) :=
  [ ("Total Candidates", stat_value "total_candidates" stats);
    ("Pending Review", stat_value "pending_review" stats);
    ("In Progress", stat_value "in_progress" stats);
    ("Approved", stat_value "approved" stats);
    ("Rejected", stat_value "rejected" stats) ].

(** The decision argument of [handleDecision]. *)
Inductive HRDecision := approve | reject | hold.

(** What a click on a button does: a state update, a call of
    [handleDecision], or the [TypeError] of reading [.id] of [null]. *)
Inductive click :=
| SetSelectedCandidate (c : option CandidateWithAssessment)
| HandleDecision (reportId : str) (decision : HRDecision)
| TypeError.

Record button := { title : string; onClick : click }.

(** [handleDecision(x.latest_report!.id, d)]: the non-null assertion is
    erased by the compiler, so a [null] report throws on [.id]. *)
Definition decide_click (x : CandidateWithAssessment) (d : HRDecision) : click :=
  match latest_report x with
  | None => TypeError
  | Some r => HandleDecision (report_id r) d
  end.

(** [x.latest_report && !x.latest_report.hr_decision] *)
Definition undecided (x : CandidateWithAssessment) : bool :=
  match latest_report x with
  | None => false
  | Some r =>
      negb (match hr_decision r with None => false | Some d => truthy_str d end)
  end.

(** The "Actions" cell of a table row. *)
Definition rowActions (item : CandidateWithAssessment) : list button :=
  {| title := "View Details"; onClick := SetSelectedCandidate (Some item) |}
  :: (if undecided item
      then [ {| title := "Approve"; onClick := decide_click item approve |};
             {| title := "Reject"; onClick := decide_click item reject |} ]
      else []).

(** The buttons of the detail modal, rendered when [selectedCandidate]
    is set. *)
Definition modalActions (selectedCandidate : option CandidateWithAssessment)
    : list button :=
  match selectedCandidate with
  | None => []
  | Some c =>
      {| title := "Close"; onClick := SetSelectedCandidate None |}
      :: (if undecided c
          then [ {| title := "Approve"; onClick := decide_click c approve |};
                 {| title := "Hold"; onClick := decide_click c hold |};
                 {| title := "Reject"; onClick := decide_click c reject |} ]
          else [])
  end.

(** The body [handleDecision] posts: [{decision, notes: ''}]. *)
Definition decision_name (d : HRDecision) : string :=
  match d with approve => "approve" | reject => "reject" | hold => "hold" end.

End HR.

(** ** What both interview pages share: sockets and effects *)

Module Client.
Import JS.

(** [WebSocket.readyState] *)
Inductive ReadyState := CONNECTING | OPEN | CLOSING | CLOSED.

#[global] Instance ReadyState_eq_dec : EqDecision ReadyState.
Proof. solve_decision. Defined.

(** The socket held in [wsRef.current]: the session id of its URL and its
    ready state. *)
Record WebSocket := { ws_sid : str; readyState : ReadyState }.

(** What a handler does to the outside world. *)
Inductive effect :=
| ConsoleLog (label : string) (v : value)
| ConsoleError (label : string) (v : value)
| WsSend (frame : object)          (* a frame handed to an open socket *)
| WsClose
| PostSessionEnd (sid : str)       (* POST /api/assessment/session/sid/end *)
| GetUserMedia                     (* the microphone is asked for *)
| RecorderStart (h : nat)          (* mediaRecorder.start() *)
| RecorderStop (h : nat)           (* mediaRecorder.stop() *)
| StopTracks
| AudioPlay (src : value)          (* audio.play() *)
| Speak (text : value)             (* speechSynthesis.speak *)
| IdleTimer.                       (* setTimeout(..., 3000) *)

(** [ws.send(JSON.stringify(frame))]: throws while the socket is still
    connecting ([None]), delivers on an open socket, and discards the
    data once the socket is closing or closed. *)
Definition send (ws : WebSocket) (frame : object) : option (list effect) :=
  match readyState ws with
  | CONNECTING => None
  | OPEN => Some [WsSend frame]
  | CLOSING | CLOSED => Some []
  end.

(** [ws.close()] *)
Definition close (ws : WebSocket) : WebSocket * list effect :=
  match readyState ws with
  | CLOSING | CLOSED => (ws, [])
  | _ => ({| ws_sid := ws_sid ws; readyState := CLOSING |}, [WsClose])
  end.

(** The frames a list of effects puts on the wire. *)
Definition sent_frames (es : list effect) : list object :=
  omap (fun e => match e with WsSend f => Some f | _ => None end) es.

Definition end_frame : object := {[ "type" := Str (lit "end") ]}.

End Client.

(** ** The chat interview page *)

Module Chat.
Import JS Client.

Inductive Role := user | assistant.

(** [Message]; [message_id] is [Date.now().toString()], kept as the
    number it prints, and [agent] is [undefined] when left out. *)
Record Message := {
  message_id : Z;
  role : Role;
  content : value;
  agent : value;
  timestamp : Z;
}.

(** The [useState] cells of [ChatPage] and the socket of [wsRef]. *)
Record State := mkState {
  messages : list Message;
  inputValue : str;
  isConnected : bool;
  isTyping : bool;
  sessionId : option str;
  currentAgent : value;
  isComplete : bool;
  ws : option WebSocket;
}.

Definition set_messages v '(mkState _ b c d e f g h) := mkState v b c d e f g h.
Definition set_inputValue v '(mkState a _ c d e f g h) := mkState a v c d e f g h.
Definition set_isConnected v '(mkState a b _ d e f g h) := mkState a b v d e f g h.
Definition set_isTyping v '(mkState a b c _ e f g h) := mkState a b c v e f g h.
Definition set_currentAgent v '(mkState a b c d e _ g h) := mkState a b c d e v g h.
Definition set_isComplete v '(mkState a b c d e f _ h) := mkState a b c d e f v h.
Definition set_ws v '(mkState a b c d e f g _) := mkState a b c d e f g v.

(** [ws.onmessage], installed by [connectWebSocket(sid)]; [now] is what
    [Date.now()] reads and [data] is [JSON.parse(event.data)]. *)
Definition onmessage (sid : str) (now : Z) (st : State) (data : object)
    : State * list effect :=
  if is_str (get "type" data) "typing" then
    (set_currentAgent (or_ (get "agent" data) (Str (lit "assistant")))
       (set_isTyping true st), [])
  else if is_str (get "type" data) "response" then
    let reply := {| message_id := now; role := assistant;
                    content := get "content" data; agent := get "agent" data;
                    timestamp := now |} in
    let st1 :=
      set_currentAgent (or_ (get "agent" data) (Str (lit "assistant")))
        (set_messages (messages st ++ [reply]) (set_isTyping false st)) in
    if truthy (get "is_complete" data)
    then (set_isComplete true st1, [PostSessionEnd sid])
    else (st1, [])
  else if is_str (get "type" data) "ready" then
    (st, [ConsoleLog "Chat ready:" (get "message" data)])
  else (st, []).

(** [sendMessage] *)
Definition sendMessage (now : Z) (st : State) : State * list effect :=
  match ws st with
  | Some sock =>
      if negb (truthy_str (trim (inputValue st))) || negb (isConnected st)
      then (st, [])
      else
        let userMessage := {| message_id := now; role := user;
                              content := Str (inputValue st);
                              agent := Undefined; timestamp := now |} in
        let frame : object := {[ "type" := Str (lit "message");
                                 "content" := Str (inputValue st) ]} in
        match send sock frame with
        | Some es =>
            (set_inputValue [] (set_messages (messages st ++ [userMessage]) st), es)
        | None => (set_messages (messages st ++ [userMessage]) st, [])
        end
  | None => (st, [])
  end.

(** [endSession]: the [end] frame and the close, then the POST, which
    [if (sessionId)] skips for [null] and for the empty string.  A
    [send] that throws leaves the function before the POST. *)
Definition endSession (st : State) : State * list effect :=
  let post := match sessionId st with
              | Some sid => if truthy_str sid then [PostSessionEnd sid] else []
              | None => []
              end in
  match ws st with
  | Some sock =>
      match send sock end_frame with
      | Some es =>
          let '(sock', cs) := close sock in
          (set_ws (Some sock') st, es ++ cs ++ post)
      | None => (st, [])
      end
  | None => (st, post)
  end.

End Chat.

(** ** The voice interview page *)

Module Voice.
Import JS Client.

Inductive Role := user | assistant.

(** [TranscriptItem] *)
Record TranscriptItem := {
  item_id : Z;
  role : Role;
  text : value;
  timestamp : Z;
}.

(** A [MediaRecorder]: recording, stopped with its [onstop] still to
    run, or done. *)
Inductive Recorder := Recording | Stopping | Inactive.

(** The [useState] cells of [VoicePage], its refs ([wsRef],
    [mediaRecorderRef]) and, from the browser, the recorders created so
    far, the [getUserMedia] promises not yet settled and the playbacks
    that will still report their end. *)
Record State := mkState {
  isConnected : bool;
  isRecording : bool;
  isMuted : bool;
  avatarState : value;
  transcript : list TranscriptItem;
  sessionId : option str;
  currentText : value;
  isComplete : bool;
  ws : option WebSocket;
  mediaRecorderRef : option nat;
  recorders : list Recorder;
  media_requests : nat;
  playbacks : nat;
}.

Definition set_isConnected v '(mkState _ b c d e f g h i j k l m) := mkState v b c d e f g h i j k l m.
Definition set_isRecording v '(mkState a _ c d e f g h i j k l m) := mkState a v c d e f g h i j k l m.
Definition set_isMuted v '(mkState a b _ d e f g h i j k l m) := mkState a b v d e f g h i j k l m.
Definition set_avatarState v '(mkState a b c _ e f g h i j k l m) := mkState a b c v e f g h i j k l m.
Definition set_transcript v '(mkState a b c d _ f g h i j k l m) := mkState a b c d v f g h i j k l m.
Definition set_currentText v '(mkState a b c d e f _ h i j k l m) := mkState a b c d e f v h i j k l m.
Definition set_isComplete v '(mkState a b c d e f g _ i j k l m) := mkState a b c d e f g v i j k l m.
Definition set_ws v '(mkState a b c d e f g h _ j k l m) := mkState a b c d e f g h v j k l m.
Definition set_mediaRecorderRef v '(mkState a b c d e f g h i _ k l m) := mkState a b c d e f g h i v k l m.
Definition set_recorders v '(mkState a b c d e f g h i j _ l m) := mkState a b c d e f g h i j v l m.
Definition set_media_requests v '(mkState a b c d e f g h i j k _ m) := mkState a b c d e f g h i j k v m.
Definition set_playbacks v '(mkState a b c d e f g h i j k l _) := mkState a b c d e f g h i j k l v.

(** [playAudio]: the audio element is created, and played unless muted;
    only a played one reports [onended]. *)
Definition playAudio (muted : bool) (src : value) (st : State)
    : State * list effect :=
  if muted then (st, [])
  else (set_playbacks (S (playbacks st)) st, [AudioPlay src]).

(** [speakText]: browser speech when there is one and the page is not
    muted, else a three second timer; either ends in [idle]. *)
Definition speakText (hasSpeech muted : bool) (text : value) (st : State)
    : State * list effect :=
  (set_playbacks (S (playbacks st)) st,
   if hasSpeech && negb muted then [Speak text] else [IdleTimer]).

(** The assistant's line: shown, added to the transcript, and voiced. *)
Definition say (hasSpeech muted : bool) (now : Z) (line : value)
    (data : object) (st : State) : State * list effect :=
  let item := {| item_id := now; role := assistant; text := line;
                 timestamp := now |} in
  let st1 := set_transcript (transcript st ++ [item])
               (set_avatarState (Str (lit "speaking"))
                  (set_currentText line st)) in
  if truthy (get "audio_base64" data)
  then playAudio muted (get "audio_base64" data) st1
  else speakText hasSpeech muted line st1.

(** [ws.onmessage]: the [switch] on [data.type].  [muted] is the
    [isMuted] the handler's closure holds and [hasSpeech] is
    ['speechSynthesis' in window]. *)
Definition onmessage (hasSpeech muted : bool) (now : Z) (st : State)
    (data : object) : State * list effect :=
  if is_str (get "type" data) "ready" then
    say hasSpeech muted now (get "message" data) data st
  else if is_str (get "type" data) "status" then
    let st1 := set_avatarState (get "avatar_state" data) st in
    (if truthy (get "message" data)
     then set_currentText (get "message" data) st1 else st1, [])
  else if is_str (get "type" data) "transcription" then
    let item := {| item_id := now; role := user; text := get "text" data;
                   timestamp := now |} in
    (set_transcript (transcript st ++ [item]) st, [])
  else if is_str (get "type" data) "response" then
    let '(st1, es) := say hasSpeech muted now (get "text" data) data st in
    (if truthy (get "is_complete" data) then set_isComplete true st1 else st1, es)
  else if is_str (get "type" data) "error" then
    (set_avatarState (Str (lit "idle")) st,
     [ConsoleError "Voice error:" (get "message" data)])
  else (st, []).

(** The [disabled] attribute of the microphone button. *)
Definition micDisabled (st : State) : bool :=
  negb (isConnected st) || is_str (avatarState st) "speaking"
  || is_str (avatarState st) "thinking" || isComplete st.

(** [startRecording] up to its [await]: the microphone is asked for and
    the function is suspended until the browser answers. *)
Definition startRecording_request (st : State) : State * list effect :=
  (set_media_requests (S (media_requests st)) st, [GetUserMedia]).

(** [startRecording] after the [await]: a new recorder takes the ref,
    starts, and the page shows [listening]. *)
Definition startRecording_granted (st : State) : State * list effect :=
  let h := length (recorders st) in
  (set_avatarState (Str (lit "listening"))
     (set_isRecording true
        (set_mediaRecorderRef (Some h)
           (set_recorders (recorders st ++ [Recording]) st))),
   [RecorderStart h]).

(** [stopRecording]; [stop()] does nothing to a recorder that is not
    recording. *)
Definition stopRecording (st : State) : State * list effect :=
  match mediaRecorderRef st with
  | Some h =>
      if isRecording st then
        let rs := match recorders st !! h with
                  | Some Recording => <[h := Stopping]> (recorders st)
                  | _ => recorders st
                  end in
        (set_isRecording false (set_recorders rs st), [RecorderStop h])
      else (st, [])
  | None => (st, [])
  end.

(** [mediaRecorder.onstop], once the blob is encoded: the [audio] frame
    goes out if the socket is open, and the tracks are stopped. *)
Definition onstop (base64Audio : str) (st : State) : list effect :=
  let frame : object := {[ "type" := Str (lit "audio");
                           "audio_base64" := Str base64Audio;
                           "format" := Str (lit "webm") ]} in
  match ws st with
  | Some sock =>
      (if bool_decide (readyState sock = OPEN) then [WsSend frame] else [])
      ++ [StopTracks]
  | None => [StopTracks]
  end.

(** [endSession] *)
Definition endSession (st : State) : State * list effect :=
  match ws st with
  | Some sock =>
      match send sock end_frame with
      | Some es =>
          let '(sock', cs) := close sock in (set_ws (Some sock') st, es ++ cs)
      | None => (st, [])
      end
  | None => (st, [])
  end.

(** What can happen to the page during a session, that is once the
    page's effect has run [startSession].  The effect itself, which runs
    [startSession] when the page is mounted and again when [candidateId]
    changes, is not one of these events: it is what stores the session
    id and puts a new socket in [wsRef]. *)
Inductive event :=
| WsOpen
| WsMessage (data : object)
| WsClosed
| ClickMic
| ClickMute
| ClickEnd
| MediaGranted                      (* getUserMedia resolves *)
| MediaDenied                       (* getUserMedia rejects *)
| RecorderStopped (h : nat) (base64Audio : str)
| PlaybackEnded.                    (* onended, onend or the timer *)

(** One turn of the event loop of a session; [None] when the event
    cannot happen in [st] (a disabled button takes no click, a promise
    settles once).  The socket's handler was installed by the first
    render, whose [isMuted] is [false]. *)
Definition step (hasSpeech : bool) (now : Z) (st : State) (ev : event)
    : option (State * list effect) :=
  match ev with
  | WsOpen =>
      match ws st with
      | Some sock =>
          if bool_decide (readyState sock = CONNECTING) then
            Some (set_isConnected true
                    (set_ws (Some {| ws_sid := ws_sid sock; readyState := OPEN |}) st),
                  [ConsoleLog "Voice WebSocket connected" Undefined])
          else None
      | None => None
      end
  | WsMessage data =>
      match ws st with
      | Some sock =>
          if bool_decide (readyState sock = OPEN)
             || bool_decide (readyState sock = CLOSING)
          then Some (onmessage hasSpeech false now st data)
          else None
      | None => None
      end
  | WsClosed =>
      match ws st with
      | Some sock =>
          if bool_decide (readyState sock = CLOSED) then None
          else Some (set_isConnected false
                       (set_ws (Some {| ws_sid := ws_sid sock; readyState := CLOSED |}) st),
                     [ConsoleLog "Voice WebSocket disconnected" Undefined])
      | None => None
      end
  | ClickMic =>
      if micDisabled st then None
      else if isRecording st then Some (stopRecording st)
      else Some (startRecording_request st)
  | ClickMute => Some (set_isMuted (negb (isMuted st)) st, [])
  | ClickEnd => Some (endSession st)
  | MediaGranted =>
      match media_requests st with
      | O => None
      | S n => Some (startRecording_granted (set_media_requests n st))
      end
  | MediaDenied =>
      match media_requests st with
      | O => None
      | S n => Some (set_media_requests n st,
                     [ConsoleError "Microphone error:" Undefined])
      end
  | RecorderStopped h base64Audio =>
      match recorders st !! h with
      | Some Stopping =>
          Some (set_recorders (<[h := Inactive]> (recorders st)) st,
                onstop base64Audio st)
      | _ => None
      end
  | PlaybackEnded =>
      match playbacks st with
      | O => None
      | S n => Some (set_avatarState (Str (lit "idle")) (set_playbacks n st), [])
      end
  end.

(** A run of the event loop: the state after each event, with what the
    event did. *)
Fixpoint run (hasSpeech : bool) (now : Z) (st : State) (evs : list event)
    : option (list (State * list effect)) :=
  match evs with
  | [] => Some []
  | ev :: evs' =>
      '(st', es) ← step hasSpeech now st ev;
      rest ← run hasSpeech now st' evs';
      Some ((st', es) :: rest)
  end.

(** The page once [startSession] has stored the session id and
    [connectWebSocket] has created the socket. *)
Definition started (sid : str) : State :=
  {| isConnected := false; isRecording := false; isMuted := false;
     avatarState := Str (lit "idle"); transcript := [];
     sessionId := Some sid; currentText := Str []; isComplete := false;
     ws := Some {| ws_sid := sid; readyState := CONNECTING |};
     mediaRecorderRef := None; recorders := []; media_requests := 0;
     playbacks := 0 |}.

(** The recorders that are capturing sound. *)
Definition capturing (st : State) : nat :=
  length (List.filter (fun r => match r with Recording => true | _ => false end)
            (recorders st)).

End Voice.

(** ** The session orchestrator *)

Module Core.
Import JS.

(** Modelled from the spec: the backend's stage type is not in the
    source tree; these are the states of the Session State Machine, in
    their fixed order. *)
Inductive Stage :=
| ProfileAnalysis
| TechnicalInterview
| BehavioralInterview
| Evaluation
| HRHandoff
| Closed.

#[global] Instance Stage_eq_dec : EqDecision Stage.
Proof. solve_decision. Defined.

(** Modelled from the spec: the position of a stage in the fixed order
    [ProfileAnalysis < ... < HRHandoff < Closed]; the backend is not in
    the source tree. *)
Definition rank (s : Stage) : nat :=
  match s with
  | ProfileAnalysis => 0
  | TechnicalInterview => 1
  | BehavioralInterview => 2
  | Evaluation => 3
  | HRHandoff => 4
  | Closed => 5
  end.

(** Modelled from the spec: the fixed order of the stages, by rank; the
    backend is not in the source tree. *)
Definition stage_le (a b : Stage) : Prop := rank a <= rank b.

(** Modelled from the spec: the backend's transition function is not in
    the source tree.  [advance] goes to the next stage in the fixed order
    when the completion signal is true and stays otherwise; completing
    [HRHandoff] closes the session, and [Closed] is frozen. *)
Definition advance (currentStage : Stage) (completionSignal : bool) : Stage :=
  if completionSignal then
    match currentStage with
    | ProfileAnalysis => TechnicalInterview
    | TechnicalInterview => BehavioralInterview
    | BehavioralInterview => Evaluation
    | Evaluation => HRHandoff
    | HRHandoff => Closed
    | Closed => Closed
    end
  else currentStage.

(** Modelled from the spec: the error taxonomy of the backend, which is
    not in the source tree. *)
Inductive Error :=
| SessionNotFound
| SessionClosed
| TurnInProgress
| AgentFailure
| InvalidTransition
| ReportNotFound
| DecisionAlreadyRecorded.

(** Modelled from the spec: who produced a Turn of the backend's
    history, which is not in the source tree. *)
Inductive TurnRole := candidate | agent.

(** Modelled from the spec: a Turn of the backend's history, which is
    not in the source tree. *)
Record Turn := {
  turn_role : TurnRole;
  turn_stage : Stage;
  turn_content : str;
  seq : nat;
}.

(** Modelled from the spec: what the scoring of a history yields; the
    scoring itself is outside the orchestrator. *)
Record Scores := {
  overall : float;
  technical : float;
  behavioral : float;
  recommendation_text : str;
}.

(** Modelled from the spec: the Assessment Report of the backend, which
    is not in the source tree; [partial] marks a report synthesized by a
    forced end. *)
Record Report := {
  scores : Scores;
  partial : bool;
  decision : option HR.HRDecision;
  notes : str;
  hr_reviewed : bool;
}.

(** Modelled from the spec: a Session of the backend, which is not in
    the source tree, with the reports derived from it and whether a turn
    of it is being produced. *)
Record Session := {
  stage : Stage;
  history : list Turn;
  reports : list Report;
  in_flight : bool;
}.

(** Modelled from the spec: what the Agent bound to the stage answers,
    or that its bounded retries are exhausted; the agents are outside
    the orchestrator. *)
Inductive AgentOutcome := Reply (text : str) (done : bool) | Failed.

(** Modelled from the spec: the [TurnResult] of [submitTurn]. *)
Record TurnResult := {
  reply : str;
  stage_after : Stage;
  stage_changed : bool;
}.

Section Orchestrator.

(** The scoring of a turn history, an external collaborator. *)
Variable scoring : list Turn -> Scores.

(** Modelled from the spec: a fresh session, as [startSession] of the
    backend (not in the source tree) creates it. *)
Definition startSession : Session :=
  {| stage := ProfileAnalysis; history := []; reports := []; in_flight := false |}.

(** Modelled from the spec: report creation of the backend (not in the
    source tree): computed once from the history, with no HR decision;
    nothing is created when the session already has a report. *)
Definition ensure_report (is_partial : bool) (s : Session) : list Report :=
  match reports s with
  | [] => [ {| scores := scoring (history s); partial := is_partial;
               decision := None; notes := []; hr_reviewed := false |} ]
  | rs => rs
  end.

(** Modelled from the spec: the forced end of the backend (not in the
    source tree): straight to [Closed] from any stage, synthesizing a
    partial report if none exists yet. *)
Definition force_end (s : Session) : Session :=
  {| stage := Closed; history := history s;
     reports := ensure_report true s; in_flight := in_flight s |}.

(** Modelled from the spec: [endSession] of the backend (not in the
    source tree): a no-op on a [Closed] session, a forced end otherwise;
    it never fails. *)
Definition endSession (s : Session) : Session * option Error :=
  if decide (stage s = Closed) then (s, None) else (force_end s, None).

(** Modelled from the spec: the registry's [sweep] of the backend (not
    in the source tree) evicts an idle session by the forced-end path. *)
Definition sweep (s : Session) : Session :=
  if decide (stage s = Closed) then s else force_end s.

(** Modelled from the spec: the admission half of [submitTurn] of the
    backend (not in the source tree): a closed session and a session with
    a turn in flight reject; otherwise the inbound content is appended as
    a candidate turn with the next sequence number. *)
Definition accept (s : Session) (inboundContent : str) : Error + Session :=
  if decide (stage s = Closed) then inl SessionClosed
  else if in_flight s then inl TurnInProgress
  else inr {| stage := stage s;
              history := history s ++
                [ {| turn_role := candidate; turn_stage := stage s;
                     turn_content := inboundContent;
                     seq := length (history s) |} ];
              reports := reports s; in_flight := true |}.

(** Modelled from the spec: the commit half of [submitTurn] of the
    backend (not in the source tree).  A failed agent call surfaces as
    [AgentFailure] with stage and history untouched; a reply is appended,
    the stage advances on the completion signal, and the report is
    created on reaching [HRHandoff] or later.  The result of a call that
    outlived a forced end is discarded. *)
Definition commit (s : Session) (outcome : AgentOutcome)
    : Session * (Error + TurnResult) :=
  let idle := {| stage := stage s; history := history s;
                 reports := reports s; in_flight := false |} in
  if decide (stage s = Closed) then (idle, inl SessionClosed)
  else
    match outcome with
    | Failed => (idle, inl AgentFailure)
    | Reply text done =>
        let stage' := advance (stage s) done in
        let said := {| stage := stage s;
                       history := history s ++
                         [ {| turn_role := agent; turn_stage := stage s;
                              turn_content := text;
                              seq := length (history s) |} ];
                       reports := reports s; in_flight := false |} in
        ({| stage := stage'; history := history said;
            reports := if decide (rank HRHandoff <= rank stage')
                       then ensure_report false said else reports s;
            in_flight := false |},
         inr {| reply := text; stage_after := stage';
                stage_changed := bool_decide (stage' <> stage s) |})
    end.

(** Modelled from the spec: [submitTurn] of the backend (not in the
    source tree), admission then commit. *)
Definition submitTurn (s : Session) (inboundContent : str)
    (outcome : AgentOutcome) : Session * (Error + TurnResult) :=
  match accept s inboundContent with
  | inl e => (s, inl e)
  | inr s1 => commit s1 outcome
  end.

(** Modelled from the spec: what can happen to a session of the backend
    (not in the source tree): a whole [submitTurn], its two halves taken
    apart by a slow agent call, an end request, or the sweeper. *)
Inductive op :=
| Submit (inboundContent : str) (outcome : AgentOutcome)
| Accept (inboundContent : str)
| Commit (outcome : AgentOutcome)
| End
| Sweep.

(** Modelled from the spec: what an operation makes of a session of the
    backend (not in the source tree); a rejected or inapplicable one
    leaves it as it is. *)
Definition apply (s : Session) (o : op) : Session :=
  match o with
  | Submit c out => fst (submitTurn s c out)
  | Accept c => match accept s c with inl _ => s | inr s1 => s1 end
  | Commit out => if in_flight s then fst (commit s out) else s
  | End => fst (endSession s)
  | Sweep => sweep s
  end.

(** The stages a session shows over a run, the first one included. *)
Fixpoint observed (s : Session) (ops : list op) : list Stage :=
  match ops with
  | [] => [stage s]
  | o :: ops' => stage s :: observed (apply s o) ops'
  end.

Definition run (s : Session) (ops : list op) : Session := foldl apply s ops.




End Orchestrator.

(** Modelled from the spec: the report table behind the HR surface of
    the backend (not in the source tree), by report id. *)
Abbreviation ReportStore := (gmap (list N) Report).

(** Modelled from the spec: [recordDecision] of the backend (not in the
    source tree): fails with [ReportNotFound] on an unknown id and with
    [DecisionAlreadyRecorded] on a report that has a decision; otherwise
    stores the decision and marks the report reviewed. *)
Definition recordDecision (store : ReportStore) (reportId : str)
    (d : HR.HRDecision) (text : str) : Error + ReportStore :=
  match store !! reportId with
  | None => inl ReportNotFound
  | Some r =>
      match decision r with
      | Some _ => inl DecisionAlreadyRecorded
      | None =>
          inr (<[reportId := {| scores := scores r; partial := partial r;
                                decision := Some d; notes := text;
                                hr_reviewed := true |}]> store)
      end
  end.

(** Modelled from the spec: the report as the HR surface of the backend
    (not in the source tree) hands it to the dashboard: the decision by
    its name, or [null]. *)
Definition to_dashboard (reportId : str) (r : Report) : HR.Report :=
  {| HR.report_id := reportId;
     HR.overall_score := overall (scores r);
     HR.technical_score := technical (scores r);
     HR.behavioral_score := behavioral (scores r);
     HR.recommendation := recommendation_text (scores r);
     HR.hr_reviewed := hr_reviewed r;
     HR.hr_decision := (fun d => lit (HR.decision_name d)) <$> decision r |}.

(** Modelled from the spec: how both Transport Adapters of the backend
    (not in the source tree) put an orchestration error on the wire: an
    [error] frame with a message. *)
Definition error_frame (e : Error) (message : str) : object :=
  {[ "type" := Str (lit "error"); "message" := Str message ]}.

(** Modelled from the spec: the [dashboardStats] answer of the backend
    (not in the source tree), an object with the fields [total],
    [pending], [approved], [rejected] and [in_progress]. *)
Definition dashboardStats (total pending approved rejected in_progress : float)
    : object :=
  {[ "total" := Num total; "pending" := Num pending;
     "approved" := Num approved; "rejected" := Num rejected;
     "in_progress" := Num in_progress ]}.

(** Modelled from the spec: the message kinds of the realtime turn
    protocol. *)
Definition protocol_kinds : list string :=
  ["ready"; "message"; "transcription"; "response"; "status"; "error"; "end"].


End Core.

(** ** Vocabulary of the statements, and concrete inputs *)

Module Samples.
Import JS.

(** The property names the stat cards of the dashboard read. *)
Definition stat_fields : list string :=
  ["total_candidates"; "pending_review"; "in_progress"; "approved"; "rejected"].

(** The kinds on the wire: the protocol's, [typing] and [audio]. *)
Definition wire_kinds : list string :=
  Core.protocol_kinds ++ ["typing"; "audio"].

(** The frame [data] is of one of the [kinds]. *)
Definition kind_in (data : object) (kinds : list string) : Prop :=
  exists k, In k kinds /\ get "type" data = Str (lit k).

(** Which of the rendered cards show a truthy value. *)
Definition shown_truthy (cards : list (string * value)) : list bool :=
  map (fun card => truthy (snd card)) cards.

Definition stats_as_read : object :=
  {[ "total_candidates" := Num 5; "pending_review" := Num 2;
     "in_progress" := Num 1; "approved" := Num 1; "rejected" := Num 1 ]}.

Definition stats_as_specified : object := Core.dashboardStats 5 2 1 1 1.

(** The stat cards by their titles, each with the property of
    [DashboardStats] that it shows. *)
Definition card_fields : list (string * string) :=
  [ ("Total Candidates", "total_candidates");
    ("Pending Review", "pending_review");
    ("In Progress", "in_progress");
    ("Approved", "approved");
    ("Rejected", "rejected") ].

(** Stats with a different count on every card, and one of them zero. *)
Definition stats_distinct : object :=
  {[ "total_candidates" := Num 9; "pending_review" := Num 0;
     "in_progress" := Num 2; "approved" := Num 3; "rejected" := Num 4 ]}.

Definition ada : HR.Candidate :=
  {| HR.candidate_id := lit "c1"; HR.name := lit "Ada"; HR.email := lit "ada@example.org";
     HR.job_role := lit "Backend Developer"; HR.status := lit "hr_review";
     HR.created_at := lit "2024-05-01" |}.

Definition fresh_scores : Core.Scores :=
  {| Core.overall := 82; Core.technical := 85.5; Core.behavioral := 78;
     Core.recommendation_text := lit "Proceed" |}.

Definition fresh_report : Core.Report :=
  {| Core.scores := fresh_scores; Core.partial := false; Core.decision := None;
     Core.notes := []; Core.hr_reviewed := false |}.

(** Ada's entry on the dashboard, her report not yet decided. *)
Definition ada_entry : HR.CandidateWithAssessment :=
  {| HR.candidate := ada;
     HR.latest_report := Some (Core.to_dashboard (lit "r1") fresh_report);
     HR.sessions_count := 1 |}.

Definition approve_button : HR.button :=
  {| HR.title := "Approve"; HR.onClick := HR.HandleDecision (lit "r1") HR.approve |}.

(** A report whose [hr_decision] is the empty string, which its type
    [string | null] admits. *)
Definition blank_report : HR.Report :=
  {| HR.report_id := lit "r2"; HR.overall_score := 82; HR.technical_score := 85.5;
     HR.behavioral_score := 78; HR.recommendation := lit "Proceed";
     HR.hr_reviewed := false; HR.hr_decision := Some [] |}.

Definition blank_entry : HR.CandidateWithAssessment :=
  {| HR.candidate := ada; HR.latest_report := Some blank_report;
     HR.sessions_count := 1 |}.

Definition approve_blank : HR.button :=
  {| HR.title := "Approve"; HR.onClick := HR.HandleDecision (lit "r2") HR.approve |}.

Definition one_report : Core.ReportStore := {[ lit "r1" := fresh_report ]}.


Definition open_socket : Client.WebSocket :=
  {| Client.ws_sid := lit "s1"; Client.readyState := Client.OPEN |}.

(** The chat page, connected, with [" hi "] typed in. *)
Definition chat_typed : Chat.State :=
  {| Chat.messages := []; Chat.inputValue := lit " hi "; Chat.isConnected := true;
     Chat.isTyping := false; Chat.sessionId := Some (lit "s1");
     Chat.currentAgent := Str (lit "profile_analyzer"); Chat.isComplete := false;
     Chat.ws := Some open_socket |}.

Definition hi_frame : object :=
  {[ "type" := Str (lit "message"); "content" := Str (lit " hi ") ]}.

Definition typing_frame : object :=
  {[ "type" := Str (lit "typing"); "agent" := Str (lit "technical_interviewer") ]}.


(** The voice page, connected and idle. *)
Definition voice_listening : Voice.State :=
  Voice.set_isConnected true
    (Voice.set_ws (Some open_socket) (Voice.started (lit "s1"))).

Definition thinking_status : object :=
  {[ "type" := Str (lit "status"); "avatar_state" := Str (lit "thinking") ]}.

Definition greeting : object :=
  {[ "type" := Str (lit "ready"); "message" := Str (lit "Hello") ]}.

(** The microphone is clicked, the greeting arrives and is spoken, and
    only then does the browser hand over the microphone. *)
Definition late_grant : list Voice.event :=
  [Voice.WsOpen; Voice.ClickMic; Voice.WsMessage greeting; Voice.MediaGranted].

(** The same with the server reporting [thinking] in between. *)
Definition late_grant_thinking : list Voice.event :=
  [Voice.WsOpen; Voice.ClickMic; Voice.WsMessage thinking_status; Voice.MediaGranted].

(** The microphone is clicked twice before the browser answers. *)
Definition double_click : list Voice.event :=
  [Voice.WsOpen; Voice.ClickMic; Voice.ClickMic; Voice.MediaGranted;
   Voice.MediaGranted].

(** What matters of a step of the voice page for the microphone: the
    avatar's state, whether the button is disabled, how many recorders
    are capturing, and what the step did. *)
Definition mic_view (r : Voice.State * list Client.effect)
    : value * bool * nat * list Client.effect :=
  (Voice.avatarState (fst r), Voice.micDisabled (fst r), Voice.capturing (fst r),
   snd r).

End Samples.

(** ** More of JavaScript: strings, object literals, HTTP answers *)

Module JSMore.
Import JS.

(** [s.startsWith(p)] *)
Fixpoint starts_with (p s : str) : bool :=
  match p, s with
  | [], _ => true
  | _ :: _, [] => false
  | a :: p', b :: s' => (a =? b)%N && starts_with p' s'
  end.

(** [s.replace(pattern, replacement)] with a string pattern: the first
    occurrence only.  The replacements of the pages hold no [$]. *)
Fixpoint replace (pattern replacement s : str) : str :=
  if starts_with pattern s then replacement ++ drop (length pattern) s
  else match s with
       | [] => []
       | c :: s' => c :: replace pattern replacement s'
       end.

(** [s.split(sep)] for a separator of one code unit. *)
Fixpoint split (sep : N) (s : str) : list str :=
  match s with
  | [] => [[]]
  | c :: s' =>
      if (c =? sep)%N then [] :: split sep s'
      else match split sep s' with
           | piece :: pieces => (c :: piece) :: pieces
           | [] => [[c]]
           end
  end.

(** The own property names of [Object.prototype], which every object
    literal inherits: functions, and the prototype itself under
    [__proto__]. *)
Definition object_prototype : list string :=
  ["constructor"; "__defineGetter__"; "__defineSetter__"; "hasOwnProperty";
   "__lookupGetter__"; "__lookupSetter__"; "isPrototypeOf";
   "propertyIsEnumerable"; "toString"; "valueOf"; "__proto__";
   "toLocaleString"].

(** The own property of an object literal of strings under [key]; the
    literals of the pages repeat no key. *)
Fixpoint own (table : list (string * string)) (key : str) : option string :=
  match table with
  | [] => None
  | (k, v) :: table' =>
      if bool_decide (lit k = key) then Some v else own table' key
  end.

Definition inherited (key : str) : bool :=
  bool_decide (Exists (fun k => lit k = key) object_prototype).

(** [table[key]]: the own property, else what [Object.prototype] has
    under that name (an object, all that matters of it here), else
    [undefined]. *)
Definition read (table : list (string * string)) (key : str) : value :=
  match own table key with
  | Some v => Str (lit v)
  | None => if inherited key then Ref 0 else Undefined
  end.

(** [table[key] || fallback] *)
Definition read_or (table : list (string * string)) (key : str)
    (fallback : string) : value :=
  or_ (read table key) (Str (lit fallback)).

(** [a >= b] on numbers. *)
Definition ge (a b : float) : bool := PrimFloat.leb b a.

(** What [await fetch(...)] and the [await res.json()] after it come
    to.  The request fails and [fetch] rejects with an error of that
    message, or an answer arrives with its [ok] flag and a body that
    [json()] parses or rejects. *)
Inductive body (A : Type) :=
| Malformed (message : str)
| Json (v : A).

Inductive response (A : Type) :=
| Unreachable (message : str)
| Answer (ok : bool) (json : body A).

Arguments Malformed {A} message.
Arguments Json {A} v.
Arguments Unreachable {A} message.
Arguments Answer {A} ok json.

End JSMore.

(** ** The HR dashboard page: colours, labels, loading and deciding *)

Module HRPage.
Import JS JSMore HR.

(** [getStatusColor] *)
Definition status_colors : list (string * string) :=
  [ ("pending", "text-yellow-400 bg-yellow-400/20");
    ("data_ingestion", "text-blue-400 bg-blue-400/20");
    ("profile_analysis", "text-blue-400 bg-blue-400/20");
    ("technical_interview", "text-purple-400 bg-purple-400/20");
    ("behavioral_interview", "text-orange-400 bg-orange-400/20");
    ("evaluation", "text-cyan-400 bg-cyan-400/20");
    ("hr_review", "text-pink-400 bg-pink-400/20");
    ("completed", "text-green-400 bg-green-400/20") ].

Definition getStatusColor (status : str) : value :=
  read_or status_colors status "text-gray-400 bg-gray-400/20".

(** [getScoreColor] *)
Definition getScoreColor (score : float) : string :=
  if ge score 80 then "text-green-400"
  else if ge score 60 then "text-yellow-400"
  else "text-red-400".

(** [getColor] of [ScoreCard] *)
Definition getColor (s : float) : string :=
  if ge s 80 then "from-green-500 to-emerald-500"
  else if ge s 60 then "from-yellow-500 to-orange-500"
  else "from-red-500 to-rose-500".

(** The status as the table prints it:
    [item.candidate.status.replace('_', ' ')]. *)
Definition statusLabel (status : str) : str :=
  replace (lit "_") (lit " ") status.

(** The "Decision" cell of a row: a badge with the decision and its
    colour, or the grey word Pending. *)
Inductive badge :=
| DecisionBadge (className : string) (label : value)
| Pending.

Definition decisionBadge (item : CandidateWithAssessment) : badge :=
  if truthy (latest_decision item) then
    DecisionBadge
      (if is_str (latest_decision item) "approve" then "text-green-400 bg-green-400/20"
       else if is_str (latest_decision item) "reject" then "text-red-400 bg-red-400/20"
       else "text-yellow-400 bg-yellow-400/20")
      (latest_decision item)
  else Pending.

(** What the page asks of the network and of the console. *)
Inductive effect :=
| Get (url : string)
| PostDecision (reportId : str) (payload : object)
| LogError (label : string).

(** The [useState] cells of [HRDashboardPage]. *)
Record State := mkState {
  stats : option object;
  candidates : list CandidateWithAssessment;
  selectedCandidate : option CandidateWithAssessment;
  isLoading : bool;
  filter : Filter;
}.

Definition set_stats v '(mkState _ b c d e) := mkState v b c d e.
Definition set_candidates v '(mkState a _ c d e) := mkState a v c d e.
Definition set_selectedCandidate v '(mkState a b _ d e) := mkState a b v d e.
Definition set_isLoading v '(mkState a b c _ e) := mkState a b c v e.
Definition set_filter v '(mkState a b c d _) := mkState a b c d v.

Definition stats_url : string := "http://localhost:8000/api/hr/dashboard/stats".
Definition candidates_url : string := "http://localhost:8000/api/hr/candidates".

(** One [fetch] of [fetchDashboardData] with the [if (res.ok)] after it:
    [None] when it throws, which takes the function to its [catch]. *)
Definition load {A} (res : response A) (store : A -> State -> State)
    (st : State) : option State :=
  match res with
  | Unreachable _ => None
  | Answer false _ => Some st
  | Answer true (Malformed _) => None
  | Answer true (Json v) => Some (store v st)
  end.

(** [fetchDashboardData], given what the two requests come to. *)
Definition fetchDashboardData (statsRes : response object)
    (candidatesRes : response (list CandidateWithAssessment)) (st : State)
    : State * list effect :=
  let failed := LogError "Failed to fetch dashboard data:" in
  let st0 := set_isLoading true st in
  match load statsRes (fun o => set_stats (Some o)) st0 with
  | None => (set_isLoading false st0, [Get stats_url; failed])
  | Some st1 =>
      match load candidatesRes set_candidates st1 with
      | None => (set_isLoading false st1, [Get stats_url; Get candidates_url; failed])
      | Some st2 => (set_isLoading false st2, [Get stats_url; Get candidates_url])
      end
  end.

(** [handleDecision], given what its POST comes to and, for the refresh
    it starts on success, what the two requests of the refresh come to. *)
Definition handleDecision (res : response unit) (statsRes : response object)
    (candidatesRes : response (list CandidateWithAssessment))
    (reportId : str) (decision : HRDecision) (st : State)
    : State * list effect :=
  let post := PostDecision reportId
                {[ "decision" := Str (lit (decision_name decision));
                   "notes" := Str [] ]} in
  match res with
  | Unreachable _ => (st, [post; LogError "Failed to submit decision:"])
  | Answer false _ => (st, [post])
  | Answer true _ =>
      let '(st1, es) := fetchDashboardData statsRes candidatesRes st in
      (set_selectedCandidate None st1, post :: es)
  end.

(** The rows of the table. *)
Definition rows (st : State) : list CandidateWithAssessment :=
  filteredCandidates (candidates st) (filter st).

(** The single cell shown in place of the rows when there are none. *)
Definition emptyNotice (st : State) : option string :=
  match rows st with
  | [] => Some (if isLoading st then "Loading..." else "No candidates found")
  | _ :: _ => None
  end.

End HRPage.

(** ** The chat page: agents' names, the input row, the event loop *)

Module ChatPage.
Import JS JSMore Client Chat.

(** [getAgentDisplayName] *)
Definition agent_names : list (string * string) :=
  [ ("profile_analyzer", "Profile Analyzer");
    ("technical_interviewer", "Technical Interviewer");
    ("behavioral_interviewer", "Behavioral Interviewer");
    ("evaluation", "Evaluation Agent");
    ("hr_handoff", "HR Agent") ].

Definition getAgentDisplayName (agent : str) : value :=
  read_or agent_names agent "AI Assistant".

(** [getAgentColor] *)
Definition agent_colors : list (string * string) :=
  [ ("profile_analyzer", "from-blue-500 to-cyan-500");
    ("technical_interviewer", "from-purple-500 to-pink-500");
    ("behavioral_interviewer", "from-orange-500 to-amber-500");
    ("evaluation", "from-green-500 to-emerald-500");
    ("hr_handoff", "from-red-500 to-rose-500") ].

Definition getAgentColor (agent : str) : value :=
  read_or agent_colors agent "from-gray-500 to-gray-600".

(** The [disabled] attribute of the text input. *)
Definition inputDisabled (st : State) : bool :=
  negb (isConnected st) || isTyping st || isComplete st.

(** The [disabled] attribute of the send button. *)
Definition sendDisabled (st : State) : bool :=
  negb (truthy_str (trim (inputValue st))) || negb (isConnected st)
  || isTyping st || isComplete st.

(** [handleKeyPress]: whether the key's default was prevented, and what
    [sendMessage] did if it was called. *)
Definition handleKeyPress (key : str) (shiftKey : bool) (now : Z) (st : State)
    : bool * (State * list effect) :=
  if bool_decide (key = lit "Enter") && negb shiftKey
  then (true, sendMessage now st)
  else (false, (st, [])).

(** What can happen to the page during a session, that is once the
    page's effect has run [startSession]: the events of the socket, of
    the input, and the two buttons.  The effect itself, which runs
    [startSession] when the page is mounted and again when [candidateId]
    changes, is not one of these events: it is what stores the session
    id, replaces the conversation by the greeting and puts a new socket
    in [wsRef]. *)
Inductive event :=
| WsOpen
| WsMessage (data : object)
| WsClosed
| WsError
| Change (text : str)                (* onChange of the input *)
| KeyPress (key : str) (shiftKey : bool)
| ClickSend
| ClickEnd.

(** One turn of the event loop of a session; [None] when the event
    cannot happen in [st]: a disabled input takes no key and no text, a
    disabled button no click, and a socket opens once. *)
Definition step (sid : str) (now : Z) (st : State) (ev : event)
    : option (State * list effect) :=
  match ev with
  | WsOpen =>
      match ws st with
      | Some sock =>
          if bool_decide (readyState sock = CONNECTING) then
            Some (set_isConnected true
                    (set_ws (Some {| ws_sid := ws_sid sock; readyState := OPEN |}) st),
                  [ConsoleLog "WebSocket connected" Undefined])
          else None
      | None => None
      end
  | WsMessage data =>
      match ws st with
      | Some sock =>
          if bool_decide (readyState sock = OPEN)
             || bool_decide (readyState sock = CLOSING)
          then Some (onmessage sid now st data)
          else None
      | None => None
      end
  | WsClosed =>
      match ws st with
      | Some sock =>
          if bool_decide (readyState sock = CLOSED) then None
          else Some (set_isConnected false
                       (set_ws (Some {| ws_sid := ws_sid sock; readyState := CLOSED |}) st),
                     [ConsoleLog "WebSocket disconnected" Undefined])
      | None => None
      end
  | WsError =>
      match ws st with
      | Some _ => Some (st, [ConsoleError "WebSocket error:" Undefined])
      | None => None
      end
  | Change text =>
      if inputDisabled st then None else Some (set_inputValue text st, [])
  | KeyPress key shiftKey =>
      if inputDisabled st then None
      else Some (snd (handleKeyPress key shiftKey now st))
  | ClickSend =>
      if sendDisabled st then None else Some (sendMessage now st)
  | ClickEnd => Some (endSession st)
  end.

(** A run of the event loop: the state after each event, with what the
    event did. *)
Fixpoint run (sid : str) (now : Z) (st : State) (evs : list event)
    : option (list (State * list effect)) :=
  match evs with
  | [] => Some []
  | ev :: evs' =>
      '(st', es) ← step sid now st ev;
      rest ← run sid now st' evs';
      Some ((st', es) :: rest)
  end.

(** The [message] frames among the frames a step puts on the wire. *)
Definition message_frames (es : list effect) : list object :=
  List.filter (fun f => is_str (get "type" f) "message") (sent_frames es).

End ChatPage.

(** ** The voice page: starting, leaving, and the recorded audio *)

Module VoicePage.
Import JS JSMore Client Voice.

(** What [startSession] asks of the network. *)
Inductive request :=
| PostStart (payload : object)       (* POST /api/assessment/start *)
| OpenSocket (url : str)             (* new WebSocket(url) *)
| LogStartFailure.                   (* console.error('Failed to start session:') *)

Definition set_sessionId v '(mkState a b c d e _ g h i j k l m) :=
  mkState a b c d e v g h i j k l m.


(** [startSession], given the [candidateId] of the URL and what the POST
    comes to; the answer's [id] is the session id. *)
Definition startSession (candidateId : option str) (res : response str)
    (st : State) : State * list request :=
  match candidateId with
  | None => (st, [])
  | Some c =>
      if truthy_str c then
        let post := PostStart {[ "candidate_id" := Str c;
                                 "interview_type" := Str (lit "voice") ]} in
        match res with
        | Answer true (Json id) =>
            (set_ws (Some {| ws_sid := id; readyState := CONNECTING |})
               (set_sessionId (Some id) st),
             [post; OpenSocket (lit "ws://localhost:8000/ws/voice/" ++ id)])
        | _ => (st, [post; LogStartFailure])
        end
      else (st, [])
  end.

(** The cleanup of the page's effect, run when the page is left: the
    socket is closed and the recorder of the ref is stopped. *)
Definition cleanup (st : State) : State * list effect :=
  let '(st1, es1) :=
    match ws st with
    | Some sock => let '(sock', cs) := close sock in (set_ws (Some sock') st, cs)
    | None => (st, [])
    end in
  match mediaRecorderRef st1 with
  | Some h =>
      let rs := match recorders st1 !! h with
                | Some Recording => <[h := Stopping]> (recorders st1)
                | _ => recorders st1
                end in
      (set_recorders rs st1, es1 ++ [RecorderStop h])
  | None => (st1, es1)
  end.

(** What [reader.readAsDataURL(blob)] yields for a blob of the given
    type whose bytes encode to [payload]. *)
Definition dataURL (type payload : str) : str :=
  lit "data:" ++ type ++ lit ";base64," ++ payload.

(** [blobToBase64]'s [result.split(',')[1]]; [None] is [undefined]. *)
Definition base64_part (result : str) : option str :=
  split 44 result !! 1.

End VoicePage.

(** ** The candidate form page *)

Module CandidatePage.
Import JS JSMore.

(** The inputs that report to [handleInputChange], by their [name]. *)
Inductive field := name | email | jobRole | linkedinUrl | githubUrl.

(** The [formData] cell. *)
Record Form := mkForm {
  f_name : str;
  f_email : str;
  f_jobRole : str;
  f_linkedinUrl : str;
  f_githubUrl : str;
}.

(** A chosen file, by its name. *)
Record File := { file_name : str }.

(** The [useState] cells of [CandidatePage]. *)
Record State := mkState {
  isLoading : bool;
  error : option str;
  success : bool;
  candidateId : option str;
  formData : Form;
  resumeFile : option File;
}.

Definition set_isLoading v '(mkState _ b c d e f) := mkState v b c d e f.
Definition set_error v '(mkState a _ c d e f) := mkState a v c d e f.
Definition set_success v '(mkState a b _ d e f) := mkState a b v d e f.
Definition set_candidateId v '(mkState a b c _ e f) := mkState a b c v e f.
Definition set_formData v '(mkState a b c d _ f) := mkState a b c d v f.
Definition set_resumeFile v '(mkState a b c d e _) := mkState a b c d e v.

(** The page as first rendered. *)
Definition initial : State :=
  {| isLoading := false; error := None; success := false; candidateId := None;
     formData := {| f_name := []; f_email := []; f_jobRole := lit "Software Engineer";
                    f_linkedinUrl := []; f_githubUrl := [] |};
     resumeFile := None |}.

(** [{...prev, [e.target.name]: e.target.value}] *)
Definition update (k : field) (v : str) (prev : Form) : Form :=
  match k with
  | name => mkForm v (f_email prev) (f_jobRole prev) (f_linkedinUrl prev) (f_githubUrl prev)
  | email => mkForm (f_name prev) v (f_jobRole prev) (f_linkedinUrl prev) (f_githubUrl prev)
  | jobRole => mkForm (f_name prev) (f_email prev) v (f_linkedinUrl prev) (f_githubUrl prev)
  | linkedinUrl => mkForm (f_name prev) (f_email prev) (f_jobRole prev) v (f_githubUrl prev)
  | githubUrl => mkForm (f_name prev) (f_email prev) (f_jobRole prev) (f_linkedinUrl prev) v
  end.

(** [handleInputChange] *)
Definition handleInputChange (k : field) (v : str) (st : State) : State :=
  set_formData (update k v (formData st)) st.

(** [handleFileChange]; [files] is [e.target.files], [None] for [null]. *)
Definition handleFileChange (files : option (list File)) (st : State) : State :=
  match files with
  | Some (file :: _) => set_resumeFile (Some file) st
  | _ => st
  end.

(** A part of the multipart body. *)
Inductive part := Text (v : str) | Upload (file : File).

(** The [FormData] that [handleSubmit] builds, in the order of its
    [append] calls. *)
Definition formDataToSend (st : State) : list (string * part) :=
  [ ("name", Text (f_name (formData st)));
    ("email", Text (f_email (formData st)));
    ("job_role", Text (f_jobRole (formData st))) ]
  ++ (if truthy_str (f_linkedinUrl (formData st))
      then [("linkedin_url", Text (f_linkedinUrl (formData st)))] else [])
  ++ (if truthy_str (f_githubUrl (formData st))
      then [("github_url", Text (f_githubUrl (formData st)))] else [])
  ++ (match resumeFile st with
      | Some file => [("resume", Upload file)]
      | None => []
      end).

(** What the page asks of the outside. *)
Inductive effect :=
| PreventDefault                                (* e.preventDefault() *)
| PostCandidate (form : list (string * part))   (* POST /api/candidates/ *)
| PushLater (ms : Z) (url : str).               (* setTimeout(() => router.push(url), ms) *)

(** [handleSubmit], given what the POST comes to; the answer's [id] is
    the candidate's id. *)
Definition handleSubmit (res : response str) (st : State) : State * list effect :=
  let st0 := set_error None (set_isLoading true st) in
  let post := PostCandidate (formDataToSend st) in
  match res with
  | Unreachable message =>
      (set_isLoading false (set_error (Some message) st0), [PreventDefault; post])
  | Answer false _ =>
      (set_isLoading false
         (set_error (Some (lit "Failed to submit candidate data")) st0), [PreventDefault; post])
  | Answer true (Malformed message) =>
      (set_isLoading false (set_error (Some message) st0), [PreventDefault; post])
  | Answer true (Json id) =>
      (set_isLoading false (set_success true (set_candidateId (Some id) st0)),
       [PreventDefault; post; PushLater 2000 (lit "/chat?candidateId=" ++ id)])
  end.

End CandidatePage.

(** ** More vocabulary and concrete inputs *)

Module Cases.
Import JS JSMore.

(** The request was answered with [ok]. *)
Definition accepted {A} (res : response A) : bool :=
  match res with Answer true _ => true | _ => false end.

(** The request makes the function that awaits it throw: [fetch]
    rejects, or the body of an [ok] answer does not parse. *)
Definition threw {A} (res : response A) : bool :=
  match res with
  | Unreachable _ | Answer true (Malformed _) => true
  | _ => false
  end.

(** The request was answered with [ok] and a body that parses. *)
Definition delivered {A} (res : response A) : bool :=
  match res with Answer true (Json _) => true | _ => false end.

(** The underscore and the space, as code units. *)
Definition underscore : N := 95.
Definition space : N := 32.
Definition comma : N := 44.

Definition approved_report : HR.Report :=
  {| HR.report_id := lit "r1"; HR.overall_score := 82; HR.technical_score := 85.5;
     HR.behavioral_score := 78; HR.recommendation := lit "Proceed";
     HR.hr_reviewed := true; HR.hr_decision := Some (lit "approve") |}.

(** Ada's entry once her report is approved. *)
Definition ada_approved : HR.CandidateWithAssessment :=
  {| HR.candidate := Samples.ada; HR.latest_report := Some approved_report;
     HR.sessions_count := 1 |}.

(** The socket will carry nothing any more: there is none, or it is
    closing or closed. *)
Definition gone (sock : option Client.WebSocket) : Prop :=
  match sock with
  | None => True
  | Some w => Client.readyState w = Client.CLOSING \/ Client.readyState w = Client.CLOSED
  end.

(** The user's line as [sendMessage] adds it to the conversation. *)
Definition typed (now : Z) (text : str) : Chat.Message :=
  {| Chat.message_id := now; Chat.role := Chat.user; Chat.content := Str text;
     Chat.agent := Undefined; Chat.timestamp := now |}.

(** The assistant's line as [ws.onmessage] adds it to the conversation
    on a [response] frame. *)
Definition reply (now : Z) (data : object) : Chat.Message :=
  {| Chat.message_id := now; Chat.role := Chat.assistant;
     Chat.content := get "content" data; Chat.agent := get "agent" data;
     Chat.timestamp := now |}.

(** The chat page after a click on End, its socket closing. *)
Definition chat_ended : Chat.State := fst (Chat.endSession Samples.chat_typed).

(** The voice page recording, its socket open. *)
Definition voice_recording : Voice.State :=
  fst (Voice.startRecording_granted Samples.voice_listening).

(** The form filled in, with a GitHub profile and no LinkedIn one. *)
Definition form_filled : CandidatePage.State :=
  CandidatePage.handleInputChange CandidatePage.githubUrl (lit "https://github.com/ada")
    (CandidatePage.handleInputChange CandidatePage.email (lit "ada@example.org")
       (CandidatePage.handleInputChange CandidatePage.name (lit "Ada")
          CandidatePage.initial)).

(** The dashboard showing Ada's undecided entry in the open modal. *)
Definition reviewing : HRPage.State :=
  {| HRPage.stats := Some Samples.stats_as_read;
     HRPage.candidates := [Samples.ada_entry];
     HRPage.selectedCandidate := Some Samples.ada_entry;
     HRPage.isLoading := false; HRPage.filter := HR.pending |}.

End Cases.

(** * Properties of the HR dashboard *)

Section Dashboard.
Import JS HR Samples.

(** The callback of the source and the description of the tabs agree on
    every candidate. *)
Lemma keeps_shown_under (filter : Filter) (c : CandidateWithAssessment) :
  keeps filter c = bool_decide (shown_under filter c).
Proof.
  destruct filter; simpl; try reflexivity.
  all: unfold latest_decision; destruct (latest_report c) as [r|]; simpl;
    [destruct (hr_decision r) as [d|]; simpl|]; try reflexivity.
  all: apply bool_decide_ext; split; congruence.
Qed.

Lemma bool_filter_decide {A} (P : A -> Prop) `{forall x, base.Decision (P x)}
    (f : A -> bool) (l : list A) :
  (forall x, f x = bool_decide (P x)) -> List.filter f l = base.filter P l.
Proof.
  intros Hf. induction l as [|x l IH]; [reflexivity|].
  simpl. rewrite filter_cons, Hf, IH.
  destruct (decide (P x)) as [Hx|Hx].
  - now rewrite bool_decide_eq_true_2.
  - now rewrite bool_decide_eq_false_2.
Qed.

Lemma bool_filter_sublist {A} (f : A -> bool) (l : list A) :
  sublist (List.filter f l) l.
Proof.
  induction l as [|x l IH]; simpl; [constructor|].
  destruct (f x); now constructor.
Qed.

Lemma bool_filter_true {A} (l : list A) : List.filter (fun _ => true) l = l.
Proof. induction l as [|x l IH]; simpl; congruence. Qed.

(** C9: for every candidates list and every tab, [filteredCandidates] is
    the reference filter: the whole list under [all], exactly the
    candidates in status [hr_review] under [pending], exactly those whose
    latest report is decided [approve] (resp. [reject]) under [approved]
    (resp. [rejected]); and the result is always an order-preserving
    sublist of the input. *)
Theorem filteredCandidates_is_reference :
  forall (candidates : list CandidateWithAssessment) (filter : Filter),
    filteredCandidates candidates filter = reference_filter candidates filter
    /\ sublist (filteredCandidates candidates filter) candidates
    /\ (forall c, In c (filteredCandidates candidates filter) <->
                  In c candidates /\ shown_under filter c).
Proof.
  intros candidates filter. unfold filteredCandidates. split; [|split].
  - destruct filter; simpl.
    + apply bool_filter_true.
    + apply bool_filter_decide. intros c. apply (keeps_shown_under pending).
    + apply bool_filter_decide. intros c. apply (keeps_shown_under approved).
    + apply bool_filter_decide. intros c. apply (keeps_shown_under rejected).
  - apply bool_filter_sublist.
  - intros c. rewrite filter_In, keeps_shown_under, bool_decide_eq_true. tauto.
Qed.

Lemma decide_click_ok (x : CandidateWithAssessment) (d : HRDecision) :
  undecided x = true ->
  exists r, latest_report x = Some r /\ decide_click x d = HandleDecision (report_id r) d
            /\ (hr_decision r = None \/ hr_decision r = Some []).
Proof.
  unfold undecided, decide_click. destruct (latest_report x) as [r|]; [|discriminate].
  intros Hu. exists r. split; [reflexivity|]. split; [reflexivity|].
  destruct (hr_decision r) as [[|c s]|]; simpl in Hu; auto; discriminate.
Qed.

(** Every button of a row or of the modal, with what made it appear. *)
Lemma actions_inv (item : CandidateWithAssessment) (b : button) :
  In b (rowActions item ++ modalActions (Some item)) ->
  (exists c, onClick b = SetSelectedCandidate c)
  \/ (undecided item = true /\ exists d, onClick b = decide_click item d).
Proof.
  unfold rowActions, modalActions. rewrite in_app_iff. simpl.
  destruct (undecided item); simpl; intros H.
  all: decompose [or] H; subst; simpl; try contradiction.
  all: first [ left; eexists; reflexivity
             | right; split; [reflexivity|eexists; reflexivity] ].
Qed.

(** C8: whenever a button of the table row or of the detail modal calls
    [handleDecision], the entry's [latest_report] is present: no click
    ends in the [TypeError] of [latest_report!.id] on [null], and the id
    passed is the id of that report. *)
Theorem handleDecision_report_present :
  forall (item : CandidateWithAssessment) (b : button),
    In b (rowActions item ++ modalActions (Some item)) ->
    onClick b <> TypeError
    /\ (forall rid d, onClick b = HandleDecision rid d ->
          exists r, latest_report item = Some r /\ rid = report_id r).
Proof.
  intros item b Hb. destruct (actions_inv item b Hb) as [[c Hc]|[Hu [d Hd]]].
  - rewrite Hc. split; [discriminate|]. intros rid d' Habs. discriminate.
  - destruct (decide_click_ok item d Hu) as (r & Hr & Hclick & _).
    rewrite Hd, Hclick. split; [discriminate|].
    intros rid d' Heq. injection Heq as <- _. eauto.
Qed.

Lemma handleDecision_report_present_witness :
  In approve_button (rowActions ada_entry ++ modalActions (Some ada_entry))
  /\ onClick approve_button <> TypeError
  /\ exists r, latest_report ada_entry = Some r /\ lit "r1" = report_id r.
Proof.
  assert (Hin : In approve_button
                  (rowActions ada_entry ++ modalActions (Some ada_entry)))
    by (vm_compute; tauto).
  split; [exact Hin|].
  destruct (handleDecision_report_present ada_entry approve_button Hin) as [H1 H2].
  split; [exact H1 | exact (H2 _ _ eq_refl)].
Defined.

(** The guard of the decision buttons on what the page's types accept:
    a call of [handleDecision] is offered only for a present report whose
    [hr_decision] is falsy, that is [null] or the empty string. *)
Lemma handleDecision_only_undecided (item : CandidateWithAssessment) (b : button)
    (rid : str) (d : HRDecision) :
  In b (rowActions item ++ modalActions (Some item)) ->
  onClick b = HandleDecision rid d ->
  exists r, latest_report item = Some r /\ rid = report_id r
            /\ (hr_decision r = None \/ hr_decision r = Some []).
Proof.
  intros Hb Hclick. destruct (actions_inv item b Hb) as [[c Hc]|[Hu [d' Hd]]].
  - congruence.
  - destruct (decide_click_ok item d' Hu) as (r & Hr & Hdc & Hfalsy).
    exists r. rewrite Hd, Hdc in Hclick. injection Hclick as <- _. auto.
Qed.

Lemma decision_name_nonempty (d : HRDecision) : lit (decision_name d) <> [].
Proof. destruct d; discriminate. Qed.

(** C5, as the code has it: an HR decision is recorded at most once.
    On the backend as the specification describes it, a [recordDecision]
    that succeeded leaves the decision stored and makes every later call
    on the same report fail with [DecisionAlreadyRecorded].  On the
    dashboard, the buttons that call [handleDecision] are rendered, in
    the table row and in the detail modal alike, only for a present
    report whose [hr_decision] is falsy: [null] or the empty string.  A
    report as the backend hands it over gets them only while no decision
    is recorded. *)
Theorem decision_recorded_once :
  (forall (store store' : Core.ReportStore) (rid : str) (d1 : HRDecision) (n1 : str),
      Core.recordDecision store rid d1 n1 = inr store' ->
      (exists r, store' !! rid = Some r /\ Core.decision r = Some d1)
      /\ forall d2 n2,
           Core.recordDecision store' rid d2 n2 = inl Core.DecisionAlreadyRecorded)
  /\ (forall (item : CandidateWithAssessment) (b : button) (rid : str)
             (d : HRDecision),
      In b (rowActions item ++ modalActions (Some item)) ->
      onClick b = HandleDecision rid d ->
      exists r, latest_report item = Some r /\ rid = report_id r
                /\ (hr_decision r = None \/ hr_decision r = Some []))
  /\ (forall (item : CandidateWithAssessment) (rid : str) (r : Core.Report)
             (b : button) (rid' : str) (d : HRDecision),
      latest_report item = Some (Core.to_dashboard rid r) ->
      In b (rowActions item ++ modalActions (Some item)) ->
      onClick b = HandleDecision rid' d ->
      rid' = rid /\ Core.decision r = None).
Proof.
  split; [|split].
  - intros store store' rid d1 n1. unfold Core.recordDecision.
    destruct (store !! rid) as [r|] eqn:Hr; [|discriminate].
    destruct (Core.decision r) eqn:Hd; [discriminate|].
    intros Heq. injection Heq as <-. split.
    + eexists. rewrite lookup_insert_eq. split; reflexivity.
    + intros d2 n2. rewrite lookup_insert_eq. reflexivity.
  - intros item b rid d Hb Hclick.
    exact (handleDecision_only_undecided item b rid d Hb Hclick).
  - intros item rid r b rid' d Hitem Hb Hclick.
    destruct (handleDecision_only_undecided item b rid' d Hb Hclick)
      as (r' & Hr' & Hrid & Hfalsy).
    rewrite Hitem in Hr'. injection Hr' as <-. simpl in Hrid, Hfalsy.
    split; [assumption|].
    destruct (Core.decision r) as [d0|]; simpl in Hfalsy |- *; [|auto].
    destruct Hfalsy as [Habs|Habs]; [discriminate|].
    injection Habs as Habs. now apply decision_name_nonempty in Habs.
Qed.

Lemma decision_recorded_once_witness :
  (exists store',
      Core.recordDecision one_report (lit "r1") approve [] = inr store'
      /\ Core.recordDecision store' (lit "r1") reject [] =
           inl Core.DecisionAlreadyRecorded)
  /\ (exists r, latest_report blank_entry = Some r /\ lit "r2" = report_id r
                /\ (hr_decision r = None \/ hr_decision r = Some []))
  /\ Core.decision fresh_report = None.
Proof.
  destruct decision_recorded_once as (Hserver & Hclient & Hserved). split; [|split].
  - destruct (Core.recordDecision one_report (lit "r1") approve []) as [e|store']
      eqn:Hrec; [vm_compute in Hrec; discriminate|].
    exists store'. split; [reflexivity|].
    exact (proj2 (Hserver one_report store' (lit "r1") approve [] Hrec) reject []).
  - refine (Hclient blank_entry approve_blank (lit "r2") approve _ eq_refl).
    vm_compute; tauto.
  - refine (proj2 (Hserved ada_entry (lit "r1") fresh_report approve_button
                     (lit "r1") approve eq_refl _ eq_refl)).
    vm_compute; tauto.
Defined.

(** C5, as stated, fails: an entry whose report has the empty string for
    [hr_decision], which is not [null], is offered the decision buttons
    in its row and in the modal, and they call [handleDecision] on that
    report. *)
Lemma decision_offered_on_empty_decision :
  latest_report blank_entry = Some blank_report
  /\ hr_decision blank_report = Some []
  /\ hr_decision blank_report <> None
  /\ In approve_blank (rowActions blank_entry)
  /\ In approve_blank (modalActions (Some blank_entry))
  /\ onClick approve_blank = HandleDecision (report_id blank_report) approve.
Proof.
  split; [reflexivity|]. split; [reflexivity|]. split; [discriminate|].
  split; [vm_compute; tauto|]. split; [vm_compute; tauto|]. reflexivity.
Qed.

Lemma card_shows (stats : option object) (title field : string) :
  In (title, field) card_fields ->
  In (title, if truthy (opt_get field stats) then opt_get field stats else Num 0)
     (statCards stats).
Proof.
  intros Hin. simpl in Hin.
  decompose [or] Hin; try contradiction;
    match goal with H : (_, _) = (_, _) |- _ => injection H as <- <- end;
    unfold statCards, stat_value, or_; simpl; tauto.
Qed.

(** C2, as the code has it: the dashboard's five stat cards read the
    fields [total_candidates], [pending_review], [in_progress],
    [approved] and [rejected] of the stats object, one per card, and
    nothing else of it: two objects that agree on these fields give the
    same cards, and each of the five fields changes a card.  The cards
    are titled Total Candidates, Pending Review, In Progress, Approved
    and Rejected, in this order, and each shows the field of its title
    when that field is truthy and [0] otherwise: when the field is
    missing or falsy, and on all five cards while [stats] is [null]. *)
Theorem statCards_read_stat_fields :
  (forall o1 o2 : object,
      (forall k, In k stat_fields -> o1 !! k = o2 !! k) ->
      statCards (Some o1) = statCards (Some o2))
  /\ (forall k, In k stat_fields ->
        statCards (Some (<[k := Num 1]> ∅)) <> statCards (Some ∅))
  /\ statCards (Some stats_as_read) =
       [ ("Total Candidates", Num 5); ("Pending Review", Num 2);
         ("In Progress", Num 1); ("Approved", Num 1); ("Rejected", Num 1) ]
  /\ (forall stats : option object,
        map fst (statCards stats) = map fst card_fields
        /\ map snd card_fields = stat_fields)
  /\ (forall (stats : option object) (title field : string),
        In (title, field) card_fields ->
        In (title,
            if truthy (opt_get field stats) then opt_get field stats else Num 0)
           (statCards stats))
  /\ (forall (o : object) (title field : string),
        In (title, field) card_fields ->
        o !! field = None \/ truthy (get field o) = false ->
        In (title, Num 0) (statCards (Some o)))
  /\ statCards None =
       [ ("Total Candidates", Num 0); ("Pending Review", Num 0);
         ("In Progress", Num 0); ("Approved", Num 0); ("Rejected", Num 0) ]
  /\ statCards (Some stats_distinct) =
       [ ("Total Candidates", Num 9); ("Pending Review", Num 0);
         ("In Progress", Num 2); ("Approved", Num 3); ("Rejected", Num 4) ].
Proof.
  split; [|split; [|split; [|split; [|split; [|split; [|split]]]]]].
  - intros o1 o2 Hagree. unfold statCards, stat_value, opt_get, get.
    rewrite !Hagree by (simpl; tauto). reflexivity.
  - intros k Hk. simpl in Hk.
    decompose [or] Hk; subst; try contradiction; intros Heq;
      apply (f_equal shown_truthy) in Heq; vm_compute in Heq; discriminate.
  - vm_compute. reflexivity.
  - intros stats. split; reflexivity.
  - exact card_shows.
  - intros o title field Hin Hfalsy.
    pose proof (card_shows (Some o) title field Hin) as Hcard.
    assert (Hf : truthy (opt_get field (Some o)) = false).
    { destruct Hfalsy as [Hmiss|Hf]; [|exact Hf].
      simpl. unfold get. now rewrite Hmiss. }
    now rewrite Hf in Hcard.
  - reflexivity.
  - vm_compute. reflexivity.
Qed.

Lemma statCards_read_stat_fields_witness :
  statCards (Some stats_as_read) =
    statCards (Some (<["total" := Num 7]> stats_as_read))
  /\ In ("Pending Review", Num 0) (statCards (Some stats_distinct))
  /\ In ("Approved", Num 0) (statCards (Some (delete "approved" stats_as_specified))).
Proof.
  destruct statCards_read_stat_fields as (Hsame & _ & _ & _ & _ & Hzero & _).
  split; [|split].
  - apply Hsame.
    intros k Hk. simpl in Hk.
    decompose [or] Hk; subst; try contradiction; vm_compute; reflexivity.
  - apply (Hzero stats_distinct "Pending Review" "pending_review").
    + vm_compute; tauto.
    + right. vm_compute. reflexivity.
  - apply (Hzero _ "Approved" "approved").
    + vm_compute; tauto.
    + left. vm_compute. reflexivity.
Defined.

(** C2, as stated, fails: of an object with the specified fields
    [total], [pending], [approved], [rejected], [in_progress] the cards
    show neither the total nor the pending count. *)
Lemma statCards_drop_specified_fields :
  get "total" stats_as_specified = Num 5
  /\ get "pending" stats_as_specified = Num 2
  /\ statCards (Some stats_as_specified) =
       [ ("Total Candidates", Num 0); ("Pending Review", Num 0);
         ("In Progress", Num 1); ("Approved", Num 1); ("Rejected", Num 1) ]
  /\ statCards (Some stats_as_specified) <>
       [ ("Total Candidates", Num 5); ("Pending Review", Num 2);
         ("In Progress", Num 1); ("Approved", Num 1); ("Rejected", Num 1) ].
Proof.
  repeat split; try (vm_compute; reflexivity).
  intros Heq. apply (f_equal shown_truthy) in Heq.
  vm_compute in Heq. discriminate.
Qed.

End Dashboard.

(** * Properties of the interview pages *)

Section Pages.
Import JS Client Samples.

Lemma is_str_true (v : value) (l : string) :
  is_str v l = true -> v = Str (lit l).
Proof.
  destruct v; simpl; try discriminate.
  intros H. apply bool_decide_eq_true in H. now subst.
Qed.

Lemma get_type_error (e : Core.Error) (message : str) :
  get "type" (Core.error_frame e message) = Str (lit "error")
  /\ get "message" (Core.error_frame e message) = Str message.
Proof. split; reflexivity. Qed.

(** C1, on the code: an [error] frame, which is how the adapters report
    [TurnInProgress] and [AgentFailure], reaches the [error] branch of the
    voice page (the avatar goes back to [idle] and the message is
    logged), but falls through every branch of the chat page's handler:
    the chat page's state is untouched and nothing is logged. *)
Theorem chat_drops_error_frames :
  forall (e : Core.Error) (message sid : str) (now : Z)
         (chat : Chat.State) (hasSpeech muted : bool) (voice : Voice.State),
    Chat.onmessage sid now chat (Core.error_frame e message) = (chat, [])
    /\ Voice.onmessage hasSpeech muted now voice (Core.error_frame e message) =
         (Voice.set_avatarState (Str (lit "idle")) voice,
          [ConsoleError "Voice error:" (Str message)]).
Proof.
  intros e message sid now chat hasSpeech muted voice.
  unfold Chat.onmessage, Voice.onmessage.
  destruct (get_type_error e message) as [-> ->]. split; reflexivity.
Qed.

Lemma sent_frames_send (sock : WebSocket) (frame : object) (es : list effect) :
  send sock frame = Some es ->
  (readyState sock = OPEN /\ sent_frames es = [frame]) \/ sent_frames es = [].
Proof.
  unfold send. destruct (readyState sock); intros H; try discriminate;
    injection H as <-; auto.
Qed.

(** What [sendMessage] puts on the socket, if anything. *)
Lemma sendMessage_sent (now : Z) (st : Chat.State) (f : object) :
  In f (sent_frames (snd (Chat.sendMessage now st))) ->
  trim (Chat.inputValue st) <> []
  /\ f = {[ "type" := Str (lit "message"); "content" := Str (Chat.inputValue st) ]}
  /\ Chat.isConnected st = true.
Proof.
  unfold Chat.sendMessage.
  destruct (Chat.ws st) as [sock|]; [|intros []].
  destruct (trim (Chat.inputValue st)) as [|c s] eqn:Htrim; simpl; [intros []|].
  destruct (Chat.isConnected st); simpl; [|intros []].
  match goal with |- context [send sock ?fr] =>
    destruct (send sock fr) as [es|] eqn:Hsend end; simpl; [|intros []].
  apply sent_frames_send in Hsend. destruct Hsend as [[_ ->] | ->]; [|intros []].
  intros Hf. destruct Hf as [<-|Hf]; [|destruct Hf].
  split; [discriminate|]. split; reflexivity.
Qed.

(** C6: for every input and every connection state, [sendMessage] puts
    a frame on the socket only when the input is non-empty after
    trimming, and then a [message] frame carrying the input; with an
    input that trims to nothing it sends nothing and changes nothing.
    On an open socket of a connected page an input with content is sent. *)
Theorem sendMessage_needs_content :
  forall (now : Z) (st : Chat.State),
    (trim (Chat.inputValue st) = [] -> Chat.sendMessage now st = (st, []))
    /\ (forall f, In f (sent_frames (snd (Chat.sendMessage now st))) ->
          trim (Chat.inputValue st) <> []
          /\ f = {[ "type" := Str (lit "message");
                    "content" := Str (Chat.inputValue st) ]}
          /\ Chat.isConnected st = true)
    /\ (forall sock,
          trim (Chat.inputValue st) <> [] -> Chat.isConnected st = true ->
          Chat.ws st = Some sock -> readyState sock = OPEN ->
          snd (Chat.sendMessage now st) =
            [WsSend {[ "type" := Str (lit "message");
                       "content" := Str (Chat.inputValue st) ]}]).
Proof.
  intros now st. split; [|split].
  - unfold Chat.sendMessage. intros ->. destruct (Chat.ws st); reflexivity.
  - apply sendMessage_sent.
  - intros sock Htrim Hconn Hws Hopen. unfold Chat.sendMessage, send.
    rewrite Hws, Hconn, Hopen.
    destruct (trim (Chat.inputValue st)); [contradiction|reflexivity].
Qed.

Lemma sendMessage_needs_content_witness :
  Chat.sendMessage 0 (Chat.set_inputValue (lit "   ") chat_typed) =
    (Chat.set_inputValue (lit "   ") chat_typed, [])
  /\ trim (Chat.inputValue chat_typed) <> []
  /\ sent_frames (snd (Chat.sendMessage 0 chat_typed)) = [hi_frame].
Proof.
  split; [|split].
  - apply (proj1 (sendMessage_needs_content 0 _)). reflexivity.
  - refine (proj1 (proj1 (proj2 (sendMessage_needs_content 0 chat_typed))
                     hi_frame _)).
    vm_compute. tauto.
  - rewrite (proj2 (proj2 (sendMessage_needs_content 0 chat_typed))
               open_socket); try reflexivity.
    discriminate.
Defined.

Lemma kind_in_incl (data : object) (ks ks' : list string) :
  incl ks ks' -> kind_in data ks -> kind_in data ks'.
Proof. intros Hincl (k & Hk & Hty). exists k. auto. Qed.

Lemma kind_in_here (data : object) (k : string) (ks : list string) :
  In k ks -> is_str (get "type" data) k = true -> kind_in data ks.
Proof. intros Hk Hty. exists k. split; [assumption|]. now apply is_str_true. Qed.

(** The chat page's handler acts on [typing], [response] and [ready]
    frames only. *)
Lemma chat_onmessage_kinds (sid : str) (now : Z) (st : Chat.State) (data : object) :
  Chat.onmessage sid now st data <> (st, []) ->
  kind_in data ["typing"; "response"; "ready"].
Proof.
  unfold Chat.onmessage.
  destruct (is_str (get "type" data) "typing") eqn:E1;
    [intros _; apply (kind_in_here data "typing"); simpl; auto|].
  destruct (is_str (get "type" data) "response") eqn:E2;
    [intros _; apply (kind_in_here data "response"); simpl; auto|].
  destruct (is_str (get "type" data) "ready") eqn:E3;
    [intros _; apply (kind_in_here data "ready"); simpl; auto|].
  intros H. now contradiction H.
Qed.

(** The voice page's handler acts on the five kinds of its [switch]. *)
Lemma voice_onmessage_kinds (hasSpeech muted : bool) (now : Z)
    (st : Voice.State) (data : object) :
  Voice.onmessage hasSpeech muted now st data <> (st, []) ->
  kind_in data ["ready"; "status"; "transcription"; "response"; "error"].
Proof.
  unfold Voice.onmessage.
  destruct (is_str (get "type" data) "ready") eqn:E1;
    [intros _; apply (kind_in_here data "ready"); simpl; auto|].
  destruct (is_str (get "type" data) "status") eqn:E2;
    [intros _; apply (kind_in_here data "status"); simpl; auto|].
  destruct (is_str (get "type" data) "transcription") eqn:E3;
    [intros _; apply (kind_in_here data "transcription"); simpl; auto|].
  destruct (is_str (get "type" data) "response") eqn:E4;
    [intros _; apply (kind_in_here data "response"); simpl; auto 6|].
  destruct (is_str (get "type" data) "error") eqn:E5;
    [intros _; apply (kind_in_here data "error"); simpl; auto 6|].
  intros H. now contradiction H.
Qed.

Lemma sent_frames_app (es1 es2 : list effect) :
  sent_frames (es1 ++ es2) = sent_frames es1 ++ sent_frames es2.
Proof. apply omap_app. Qed.

Lemma sent_frames_close (sock : WebSocket) : sent_frames (snd (close sock)) = [].
Proof. unfold close. destruct (readyState sock); reflexivity. Qed.

Lemma end_frame_kind (ks : list string) : In "end" ks -> kind_in end_frame ks.
Proof. intros Hk. exists "end". split; [assumption|reflexivity]. Qed.

(** The POST of [endSession] is no frame. *)
Lemma chat_post_silent (st : Chat.State) :
  sent_frames (match Chat.sessionId st with
               | Some sid => if truthy_str sid then [PostSessionEnd sid] else []
               | None => []
               end) = [].
Proof.
  destruct (Chat.sessionId st) as [sid|]; [destruct (truthy_str sid)|]; reflexivity.
Qed.

(** The chat page sends [message] and [end] frames only. *)
Lemma chat_sent_kinds (now : Z) (st : Chat.State) (f : object) :
  In f (sent_frames (snd (Chat.sendMessage now st))
        ++ sent_frames (snd (Chat.endSession st))) ->
  kind_in f ["message"; "end"].
Proof.
  rewrite in_app_iff. intros [Hf|Hf].
  - apply sendMessage_sent in Hf. destruct Hf as (_ & -> & _).
    exists "message". split; [simpl; auto|reflexivity].
  - revert Hf. unfold Chat.endSession.
    pose proof (chat_post_silent st) as Hpost.
    destruct (Chat.ws st) as [sock|]; simpl.
    + destruct (send sock end_frame) as [es|] eqn:Hsend; simpl; [|intros []].
      pose proof (sent_frames_close sock) as Hclose.
      destruct (close sock) as [sock' cs]. simpl in *.
      rewrite !sent_frames_app, Hclose, Hpost.
      apply sent_frames_send in Hsend. destruct Hsend as [[_ ->] | ->];
        simpl; intros Hf;
        decompose [or] Hf; subst; try contradiction;
        apply end_frame_kind; simpl; auto.
    + rewrite Hpost. intros [].
Qed.

(** The voice page sends [audio] and [end] frames only. *)
Lemma voice_sent_kinds (base64Audio : str) (st : Voice.State) (f : object) :
  In f (sent_frames (Voice.onstop base64Audio st)
        ++ sent_frames (snd (Voice.endSession st))) ->
  kind_in f ["audio"; "end"].
Proof.
  rewrite in_app_iff. unfold Voice.onstop, Voice.endSession.
  destruct (Voice.ws st) as [sock|]; simpl; [|intros [[]|[]]].
  intros [Hf|Hf].
  - destruct (bool_decide (readyState sock = OPEN)); simpl in Hf;
      decompose [or] Hf; subst; try contradiction.
    exists "audio". split; [simpl; auto|reflexivity].
  - revert Hf. destruct (send sock end_frame) as [es|] eqn:Hsend; simpl; [|intros []].
    pose proof (sent_frames_close sock) as Hclose.
    destruct (close sock) as [sock' cs]. simpl in *.
    rewrite sent_frames_app, Hclose.
    apply sent_frames_send in Hsend. destruct Hsend as [[_ ->] | ->];
      simpl; intros Hf; decompose [or] Hf; subst; try contradiction.
    apply end_frame_kind; simpl; auto.
Qed.

(** C3, as the code has it: every kind the pages act on or send is one
    of [ready], [message], [transcription], [response], [status],
    [error], [end], [typing] or [audio].  The handlers of both pages act
    only on frames of these kinds, and every frame either page sends has
    its type among them. *)
Theorem kinds_on_the_wire :
  forall (data : object),
    (forall sid now st,
        Chat.onmessage sid now st data <> (st, []) -> kind_in data wire_kinds)
    /\ (forall hasSpeech muted now st,
        Voice.onmessage hasSpeech muted now st data <> (st, []) ->
        kind_in data wire_kinds)
    /\ (forall now st,
        In data (sent_frames (snd (Chat.sendMessage now st))
                 ++ sent_frames (snd (Chat.endSession st))) ->
        kind_in data wire_kinds)
    /\ (forall base64Audio st,
        In data (sent_frames (Voice.onstop base64Audio st)
                 ++ sent_frames (snd (Voice.endSession st))) ->
        kind_in data wire_kinds).
Proof.
  intros data. repeat split; intros.
  - eapply kind_in_incl; [|eapply chat_onmessage_kinds; eassumption].
    intros k Hk. simpl in Hk |- *. tauto.
  - eapply kind_in_incl; [|eapply voice_onmessage_kinds; eassumption].
    intros k Hk. simpl in Hk |- *. tauto.
  - eapply kind_in_incl; [|eapply chat_sent_kinds; eassumption].
    intros k Hk. simpl in Hk |- *. tauto.
  - eapply kind_in_incl; [|eapply voice_sent_kinds; eassumption].
    intros k Hk. simpl in Hk |- *. tauto.
Qed.

Lemma kinds_on_the_wire_witness :
  kind_in typing_frame wire_kinds /\ kind_in hi_frame wire_kinds.
Proof.
  split.
  - refine (proj1 (kinds_on_the_wire typing_frame) (lit "s1") 0%Z chat_typed _).
    intros Heq. apply (f_equal (fun r => Chat.isTyping (fst r))) in Heq.
    discriminate.
  - refine (proj1 (proj2 (proj2 (kinds_on_the_wire hi_frame))) 0%Z chat_typed _).
    vm_compute. tauto.
Defined.

(** C3, as stated, fails: the chat page acts on a [typing] frame and the
    voice page sends an [audio] frame, and neither kind is among the
    seven of the protocol. *)
Lemma typing_and_audio_outside_protocol :
  (Chat.isTyping chat_typed = false
   /\ Chat.isTyping (fst (Chat.onmessage (lit "s1") 0 chat_typed typing_frame)) = true
   /\ get "type" typing_frame = Str (lit "typing")
   /\ ~ In "typing" Core.protocol_kinds)
  /\ (exists f, sent_frames (Voice.onstop (lit "UklGRg") voice_listening) = [f]
                /\ get "type" f = Str (lit "audio"))
  /\ ~ In "audio" Core.protocol_kinds.
Proof.
  split; [|split].
  - repeat split; try reflexivity. simpl. intuition discriminate.
  - eexists. split; reflexivity.
  - simpl. intuition discriminate.
Qed.

End Pages.

(** * Properties of the session orchestrator *)

Section Sessions.
Import JS Samples Core.

Variable scoring : list Turn -> Scores.

Lemma advance_forward (s : Stage) (signal : bool) : stage_le s (advance s signal).
Proof. unfold stage_le. destruct s, signal; simpl; lia. Qed.

Lemma stage_le_Closed (s : Stage) : stage_le s Closed.
Proof. unfold stage_le. destruct s; simpl; lia. Qed.

Lemma commit_forward (s : Session) (outcome : AgentOutcome) :
  stage_le (stage s) (stage (fst (commit scoring s outcome))).
Proof.
  unfold commit. destruct (decide (stage s = Closed)); simpl.
  - unfold stage_le. lia.
  - destruct outcome as [text done|]; simpl.
    + apply advance_forward.
    + unfold stage_le. lia.
Qed.

(** No operation takes a session to an earlier stage. *)
Lemma apply_forward (s : Session) (o : op) :
  stage_le (stage s) (stage (apply scoring s o)).
Proof.
  destruct o as [c out|c|out| |]; simpl.
  - unfold submitTurn, accept.
    destruct (decide (stage s = Closed)); simpl; [unfold stage_le; lia|].
    destruct (in_flight s); simpl; [unfold stage_le; lia|].
    match goal with |- context [commit scoring ?s1 out] =>
      apply (commit_forward s1 out) end.
  - unfold accept. destruct (decide (stage s = Closed)); simpl;
      [|destruct (in_flight s); simpl]; unfold stage_le; lia.
  - destruct (in_flight s); [apply commit_forward|unfold stage_le; lia].
  - unfold endSession. destruct (decide (stage s = Closed)); simpl;
      [unfold stage_le; lia|apply stage_le_Closed].
  - unfold sweep. destruct (decide (stage s = Closed)); simpl;
      [unfold stage_le; lia|apply stage_le_Closed].
Qed.

Lemma observed_bounded (ops : list op) :
  forall s, Forall (stage_le (stage s)) (observed scoring s ops).
Proof.
  induction ops as [|o ops IH]; intros s; simpl.
  - constructor; [unfold stage_le; lia|constructor].
  - constructor; [unfold stage_le; lia|].
    eapply List.Forall_impl; [|apply IH].
    intros t Ht. pose proof (apply_forward s o). unfold stage_le in *. lia.
Qed.

(** C7: for every session and every run of operations on it (turns,
    taken whole or in their two halves, end requests, sweeps), the stages
    observed over time are non-decreasing in the fixed order
    [ProfileAnalysis < TechnicalInterview < BehavioralInterview <
    Evaluation < HRHandoff < Closed]: each observed stage is at or before
    every later one, and no single transition goes back. *)
Theorem stages_never_go_back :
  forall (s : Session) (ops : list op),
    StronglySorted stage_le (observed scoring s ops)
    /\ (forall o, stage_le (stage s) (stage (apply scoring s o)))
    /\ (forall st signal, stage_le st (advance st signal)).
Proof.
  intros s ops. split; [|split].
  - revert s. induction ops as [|o ops IH]; intros s; simpl.
    + constructor; constructor.
    + constructor; [apply IH|].
      eapply List.Forall_impl; [|apply observed_bounded].
      intros t Ht. pose proof (apply_forward s o). unfold stage_le in *. lia.
  - apply apply_forward.
  - apply advance_forward.
Qed.
















End Sessions.

Import Samples.



(** * The microphone of the voice page *)

Section Microphone.
Import JS Client Voice.

Lemma is_str_false (v : value) (l : string) :
  is_str v l = false -> v <> Str (lit l).
Proof.
  intros H Heq. subst v. simpl in H.
  now rewrite bool_decide_eq_true_2 in H.
Qed.

(** The button is enabled exactly when the page is connected, the avatar
    is neither speaking nor thinking, and the interview is not complete. *)
Lemma micDisabled_false (st : State) :
  micDisabled st = false <->
  isConnected st = true /\ avatarState st <> Str (lit "speaking")
  /\ avatarState st <> Str (lit "thinking") /\ isComplete st = false.
Proof.
  unfold micDisabled. split.
  - intros H. apply orb_false_elim in H as [H Hc].
    apply orb_false_elim in H as [H Ht]. apply orb_false_elim in H as [Hn Hs].
    apply negb_false_iff in Hn.
    split; [assumption|]. split; [now apply is_str_false|].
    split; [now apply is_str_false|assumption].
  - intros (Hn & Hs & Ht & Hc). rewrite Hn, Hc. simpl.
    destruct (is_str (avatarState st) "speaking") eqn:E1;
      [apply is_str_true in E1; contradiction|].
    destruct (is_str (avatarState st) "thinking") eqn:E2;
      [apply is_str_true in E2; contradiction|]. reflexivity.
Qed.

(** A click asks for the microphone only through the enabled button and
    while the page does not show a recording. *)
Lemma click_asks_when_enabled (hasSpeech : bool) (now : Z) (st st' : State)
    (es : list effect) :
  step hasSpeech now st ClickMic = Some (st', es) -> In GetUserMedia es ->
  micDisabled st = false /\ isRecording st = false.
Proof.
  simpl. destruct (micDisabled st); [discriminate|].
  destruct (isRecording st) eqn:Hrec; [|auto].
  unfold stopRecording. rewrite Hrec. intros H Hin. exfalso.
  destruct (mediaRecorderRef st); injection H as <- <-;
    simpl in Hin; intuition discriminate.
Qed.

(** A recorder is started by the answer of the browser alone, whatever
    the page shows by then. *)
Lemma recorder_started_by_grant (hasSpeech : bool) (now : Z) (st st' : State)
    (ev : event) (es : list effect) (h : nat) :
  step hasSpeech now st ev = Some (st', es) -> In (RecorderStart h) es ->
  ev = MediaGranted /\ 0 < media_requests st /\ capturing st' = S (capturing st).
Proof.
  intros Hstep Hin. destruct ev; simpl in Hstep.
  - destruct (ws st) as [sock|]; [|discriminate].
    destruct (bool_decide (readyState sock = CONNECTING)); [|discriminate].
    injection Hstep as <- <-. simpl in Hin. intuition discriminate.
  - destruct (ws st) as [sock|]; [|discriminate].
    destruct (_ || _); [|discriminate]. injection Hstep as Hstep.
    exfalso. revert Hin. unfold onmessage, say, playAudio, speakText in Hstep.
    repeat match type of Hstep with
           | context [if ?b then _ else _] => destruct b
           end; injection Hstep as <- <-; simpl; intuition discriminate.
  - destruct (ws st) as [sock|]; [|discriminate].
    destruct (bool_decide (readyState sock = CLOSED)); [discriminate|].
    injection Hstep as <- <-. simpl in Hin. intuition discriminate.
  - destruct (micDisabled st); [discriminate|].
    exfalso. revert Hin. unfold stopRecording, startRecording_request in Hstep.
    destruct (isRecording st); [destruct (mediaRecorderRef st)|];
      injection Hstep as <- <-; simpl; intuition discriminate.
  - injection Hstep as <- <-. simpl in Hin. contradiction.
  - exfalso. revert Hin. unfold endSession, send, close in Hstep.
    destruct (ws st) as [sock|]; [destruct (readyState sock)|];
      injection Hstep as <- <-; simpl; intuition discriminate.
  - destruct (media_requests st) as [|n] eqn:Hreq; [discriminate|].
    injection Hstep as <- <-. split; [reflexivity|]. split; [lia|].
    unfold capturing, startRecording_granted. destruct st; simpl.
    rewrite List.filter_app, length_app. simpl. lia.
  - destruct (media_requests st); [discriminate|].
    injection Hstep as <- <-. simpl in Hin. intuition discriminate.
  - destruct (recorders st !! h0) as [[| |]|]; try discriminate.
    injection Hstep as <- <-. exfalso. revert Hin. unfold onstop.
    destruct (ws st) as [sock|]; [destruct (bool_decide _)|];
      simpl; intuition discriminate.
  - destruct (playbacks st); [discriminate|].
    injection Hstep as <- <-. simpl in Hin. contradiction.
Qed.

(** C10, on the code: the button's guard does not keep a recording from
    starting while the assistant is speaking or thinking, nor two from
    running at once.  In the first run the microphone is clicked while
    the avatar is idle, the greeting then arrives, the avatar speaks and
    the button is disabled, and the browser's late answer still starts
    recorder 0; in the second the server reports [thinking] instead.  In
    the third the button is clicked twice before the browser answers, and
    two recorders end up capturing. *)
Theorem recording_outruns_the_guard :
  (map Samples.mic_view <$> run true 0 (started (lit "s1")) Samples.late_grant) =
    Some [ (Str (lit "idle"), false, 0, [ConsoleLog "Voice WebSocket connected" Undefined]);
           (Str (lit "idle"), false, 0, [GetUserMedia]);
           (Str (lit "speaking"), true, 0, [Speak (Str (lit "Hello"))]);
           (Str (lit "listening"), false, 1, [RecorderStart 0]) ]
  /\ (map Samples.mic_view <$>
        run true 0 (started (lit "s1")) Samples.late_grant_thinking) =
    Some [ (Str (lit "idle"), false, 0, [ConsoleLog "Voice WebSocket connected" Undefined]);
           (Str (lit "idle"), false, 0, [GetUserMedia]);
           (Str (lit "thinking"), true, 0, []);
           (Str (lit "listening"), false, 1, [RecorderStart 0]) ]
  /\ (map Samples.mic_view <$> run true 0 (started (lit "s1")) Samples.double_click) =
    Some [ (Str (lit "idle"), false, 0, [ConsoleLog "Voice WebSocket connected" Undefined]);
           (Str (lit "idle"), false, 0, [GetUserMedia]);
           (Str (lit "idle"), false, 0, [GetUserMedia]);
           (Str (lit "listening"), false, 1, [RecorderStart 0]);
           (Str (lit "listening"), false, 2, [RecorderStart 1]) ].
Proof. repeat split; vm_compute; reflexivity. Qed.

End Microphone.

(** * More of the HR dashboard *)

Section DashboardMore.
Import JS JSMore HR HRPage Cases.

Lemma keeps_approved (c : CandidateWithAssessment) :
  keeps approved c = true <->
  exists r, latest_report c = Some r /\ hr_decision r = Some (lit "approve").
Proof.
  simpl. unfold latest_decision. destruct (latest_report c) as [r|]; simpl.
  - destruct (hr_decision r) as [d|] eqn:Hdec; simpl.
    + rewrite bool_decide_eq_true. split.
      * intros ->. eauto.
      * intros (r' & Hr & Hd). congruence.
    + split; [discriminate|]. intros (r' & Hr & Hd). congruence.
  - split; [discriminate|]. intros (r' & Hr & _). discriminate.
Qed.

Lemma keeps_rejected (c : CandidateWithAssessment) :
  keeps rejected c = true <->
  exists r, latest_report c = Some r /\ hr_decision r = Some (lit "reject").
Proof.
  simpl. unfold latest_decision. destruct (latest_report c) as [r|]; simpl.
  - destruct (hr_decision r) as [d|] eqn:Hdec; simpl.
    + rewrite bool_decide_eq_true. split.
      * intros ->. eauto.
      * intros (r' & Hr & Hd). congruence.
    + split; [discriminate|]. intros (r' & Hr & Hd). congruence.
  - split; [discriminate|]. intros (r' & Hr & _). discriminate.
Qed.

(** X1: no candidate is listed under both the approved and the rejected
    tab, and a candidate whose decision buttons are shown is listed
    under neither. *)
Theorem approved_and_rejected_disjoint :
  forall (candidates : list CandidateWithAssessment) (c : CandidateWithAssessment),
    (In c (filteredCandidates candidates approved) ->
     ~ In c (filteredCandidates candidates rejected))
    /\ (undecided c = true ->
        ~ In c (filteredCandidates candidates approved)
        /\ ~ In c (filteredCandidates candidates rejected)).
Proof.
  intros candidates c. unfold filteredCandidates. rewrite !filter_In. split.
  - intros [_ Ha] [_ Hr]. apply keeps_approved in Ha. apply keeps_rejected in Hr.
    destruct Ha as (r & Hr1 & Hd1). destruct Hr as (r' & Hr2 & Hd2).
    rewrite Hr1 in Hr2. injection Hr2 as <-. rewrite Hd1 in Hd2. discriminate.
  - intros Hu. unfold undecided in Hu. split; intros [_ Hk].
    + apply keeps_approved in Hk. destruct Hk as (r & Hr & Hd).
      rewrite Hr, Hd in Hu. discriminate.
    + apply keeps_rejected in Hk. destruct Hk as (r & Hr & Hd).
      rewrite Hr, Hd in Hu. discriminate.
Qed.

Lemma approved_and_rejected_disjoint_witness :
  In ada_approved (filteredCandidates [Samples.ada_entry; ada_approved] approved)
  /\ ~ In ada_approved (filteredCandidates [Samples.ada_entry; ada_approved] rejected)
  /\ ~ In Samples.ada_entry (filteredCandidates [Samples.ada_entry; ada_approved] approved).
Proof.
  assert (Hin : In ada_approved
                  (filteredCandidates [Samples.ada_entry; ada_approved] approved))
    by (vm_compute; tauto).
  split; [exact Hin|]. split.
  - exact (proj1 (approved_and_rejected_disjoint _ ada_approved) Hin).
  - exact (proj1 (proj2 (approved_and_rejected_disjoint
                           [Samples.ada_entry; ada_approved] Samples.ada_entry)
                    eq_refl)).
Defined.

(** X2: an entry whose report carries a decision (any non-empty one:
    approve, reject or hold) offers no decision button, neither in its
    row nor in the modal; so it is for every entry listed under the
    approved or the rejected tab. *)
Theorem decided_entries_offer_no_decision :
  forall (candidates : list CandidateWithAssessment) (c : CandidateWithAssessment),
    (exists r d, latest_report c = Some r /\ hr_decision r = Some d /\ d <> [])
    \/ In c (filteredCandidates candidates approved)
    \/ In c (filteredCandidates candidates rejected) ->
    rowActions c =
      [ {| title := "View Details"; onClick := SetSelectedCandidate (Some c) |} ]
    /\ modalActions (Some c) =
      [ {| title := "Close"; onClick := SetSelectedCandidate None |} ].
Proof.
  intros candidates c H.
  assert (Hu : undecided c = false).
  { unfold filteredCandidates in H. rewrite !filter_In in H.
    destruct H as [(r & d & Hr & Hd & Hne)|[[_ Hk]|[_ Hk]]].
    - unfold undecided. rewrite Hr, Hd. destruct d; [contradiction|reflexivity].
    - apply keeps_approved in Hk. destruct Hk as (r & Hr & Hd).
      unfold undecided. rewrite Hr, Hd. reflexivity.
    - apply keeps_rejected in Hk. destruct Hk as (r & Hr & Hd).
      unfold undecided. rewrite Hr, Hd. reflexivity. }
  unfold rowActions, modalActions. rewrite Hu. split; reflexivity.
Qed.

Lemma decided_entries_offer_no_decision_witness :
  length (rowActions ada_approved) = 1 /\ length (modalActions (Some ada_approved)) = 1.
Proof.
  destruct (decided_entries_offer_no_decision [ada_approved] ada_approved) as [-> ->].
  - right. left. vm_compute. tauto.
  - split; reflexivity.
Defined.

(** X3: which decisions each place offers.  A row offers approve and
    reject and never hold; the modal offers approve, hold and reject; and
    either offers them exactly when the entry has a report without a
    decision. *)
Theorem decisions_offered :
  forall (item : CandidateWithAssessment) (d : HRDecision),
    ((exists b rid, In b (rowActions item) /\ onClick b = HandleDecision rid d)
     <-> undecided item = true /\ d <> hold)
    /\ ((exists b rid, In b (modalActions (Some item)) /\ onClick b = HandleDecision rid d)
        <-> undecided item = true).
Proof.
  intros item d. unfold rowActions, modalActions.
  destruct (undecided item) eqn:Hu; simpl.
  - destruct (decide_click_ok item approve Hu) as (r & Hr & _ & _).
    unfold decide_click. rewrite Hr. split; split.
    + intros (b & rid & Hb & Hclick). split; [reflexivity|].
      decompose [or] Hb; subst; simpl in Hclick; try contradiction;
        try discriminate; injection Hclick as _ <-; discriminate.
    + intros [_ Hd]. destruct d; [| |congruence].
      * eexists _, _. split; [right; left; reflexivity|reflexivity].
      * eexists _, _. split; [right; right; left; reflexivity|reflexivity].
    + intros _. reflexivity.
    + intros _. destruct d.
      * eexists _, _. split; [right; left; reflexivity|reflexivity].
      * eexists _, _. split; [right; right; right; left; reflexivity|reflexivity].
      * eexists _, _. split; [right; right; left; reflexivity|reflexivity].
  - split; split.
    + intros (b & rid & Hb & Hclick).
      decompose [or] Hb; subst; simpl in Hclick; try contradiction; discriminate.
    + intros [Habs _]. discriminate.
    + intros (b & rid & Hb & Hclick).
      decompose [or] Hb; subst; simpl in Hclick; try contradiction; discriminate.
    + discriminate.
Qed.

(** X4: the Decision cell of a row shows the grey Pending exactly when
    the entry has no report or a report whose decision is [null] or
    empty; otherwise it shows the decision, green for [approve], red for
    [reject] and yellow for anything else. *)
Theorem decisionBadge_cases :
  forall (item : CandidateWithAssessment),
    (decisionBadge item = Pending <->
     latest_report item = None \/ undecided item = true)
    /\ (forall r d, latest_report item = Some r -> hr_decision r = Some d -> d <> [] ->
        decisionBadge item =
          DecisionBadge
            (if bool_decide (d = lit "approve") then "text-green-400 bg-green-400/20"
             else if bool_decide (d = lit "reject") then "text-red-400 bg-red-400/20"
             else "text-yellow-400 bg-yellow-400/20")
            (Str d)).
Proof.
  intros item. unfold decisionBadge, undecided, latest_decision.
  destruct (latest_report item) as [r|] eqn:Hr; simpl.
  - destruct (hr_decision r) as [[|c d]|] eqn:Hd; simpl.
    + split; [split; [auto|reflexivity]|].
      intros r' d' Hr' Hd' Hne. injection Hr' as <-. rewrite Hd in Hd'.
      injection Hd' as <-. now contradiction Hne.
    + split; [split; [discriminate|intros [H|H]; discriminate]|].
      intros r' d' Hr' Hd' _. injection Hr' as <-. rewrite Hd in Hd'.
      injection Hd' as <-. reflexivity.
    + split; [split; [auto|reflexivity]|].
      intros r' d' Hr' Hd'. injection Hr' as <-. rewrite Hd in Hd'. discriminate.
  - split; [split; [auto|reflexivity]|]. intros r d Habs. discriminate.
Qed.

Lemma decisionBadge_cases_witness :
  decisionBadge ada_approved =
    DecisionBadge "text-green-400 bg-green-400/20" (Str (lit "approve")).
Proof.
  refine (proj2 (decisionBadge_cases ada_approved) approved_report (lit "approve")
            eq_refl eq_refl _).
  discriminate.
Defined.

Lemma own_None (table : list (string * string)) (key : str) :
  (forall k, In k (map fst table) -> key <> lit k) -> own table key = None.
Proof.
  induction table as [|[k v] table IH]; simpl; intros Hk; [reflexivity|].
  rewrite bool_decide_eq_false_2.
  - apply IH. intros k' Hk'. apply Hk. now right.
  - intros Heq. apply (Hk k); [now left|now symmetry].
Qed.

Lemma inherited_false (key : str) :
  (forall k, In k object_prototype -> key <> lit k) -> inherited key = false.
Proof.
  intros Hk. unfold inherited. apply bool_decide_eq_false_2.
  rewrite Exists_exists. intros (k & Hin & Heq).
  apply (Hk k); [now apply list_elem_of_In|now symmetry].
Qed.

Lemma read_or_default (table : list (string * string)) (key : str)
    (fallback : string) :
  (forall k, In k (map fst table ++ object_prototype) -> key <> lit k) ->
  read_or table key fallback = Str (lit fallback).
Proof.
  intros Hk. unfold read_or, read.
  rewrite own_None by (intros k Hin; apply Hk, in_or_app; now left).
  rewrite inherited_false by (intros k Hin; apply Hk, in_or_app; now right).
  reflexivity.
Qed.

(** X5: [getStatusColor] gives each of the eight statuses of its table
    the colour listed for it, and every status that is neither in the
    table nor the name of a property all objects inherit the grey
    fallback; for an inherited name such as [constructor] the lookup
    finds the inherited property and the result is no colour at all. *)
Theorem getStatusColor_table :
  (forall k v, In (k, v) status_colors -> getStatusColor (lit k) = Str (lit v))
  /\ (forall status,
        (forall k, In k (map fst status_colors ++ object_prototype) ->
                   status <> lit k) ->
        getStatusColor status = Str (lit "text-gray-400 bg-gray-400/20"))
  /\ (forall k, In k object_prototype -> getStatusColor (lit k) = Ref 0).
Proof.
  split; [|split].
  - intros k v Hin. simpl in Hin.
    decompose [or] Hin; try contradiction;
      match goal with H : (_, _) = (k, v) |- _ => injection H as <- <- end;
      vm_compute; reflexivity.
  - intros status Hk. now apply read_or_default.
  - intros k Hin. simpl in Hin.
    decompose [or] Hin; subst; try contradiction; vm_compute; reflexivity.
Qed.

Lemma getStatusColor_table_witness :
  getStatusColor (lit "hr_review") = Str (lit "text-pink-400 bg-pink-400/20")
  /\ getStatusColor (lit "archived") = Str (lit "text-gray-400 bg-gray-400/20")
  /\ getStatusColor (lit "constructor") = Ref 0.
Proof.
  destruct getStatusColor_table as (Hown & Hdefault & Hinherited).
  split; [|split].
  - apply Hown. simpl. tauto.
  - apply Hdefault. intros k Hin. simpl in Hin.
    decompose [or] Hin; subst; try contradiction; discriminate.
  - apply Hinherited. simpl. tauto.
Defined.

(** X6: the score in a row and the score cards of the modal colour a
    score by the same bands: one is green exactly when the other is,
    and likewise yellow and red; green means at least 80, yellow at
    least 60 and not 80, and whatever is left, a score that is not a
    number included, is red. *)
Theorem score_colours_agree :
  forall (score : float),
    (getScoreColor score = "text-green-400" <->
     getColor score = "from-green-500 to-emerald-500")
    /\ (getScoreColor score = "text-yellow-400" <->
        getColor score = "from-yellow-500 to-orange-500")
    /\ (getScoreColor score = "text-red-400" <->
        getColor score = "from-red-500 to-rose-500")
    /\ (getScoreColor score = "text-green-400" <-> ge score 80 = true)
    /\ (getScoreColor score = "text-red-400" <->
        ge score 80 = false /\ ge score 60 = false).
Proof.
  intros score. unfold getScoreColor, getColor.
  destruct (ge score 80), (ge score 60);
    repeat split; intros; try discriminate; try reflexivity;
    match goal with H : _ /\ _ |- _ => destruct H; discriminate end.
Qed.

Lemma statusLabel_cons (c : N) (s : str) :
  statusLabel (c :: s) =
  if (underscore =? c)%N then space :: s else c :: statusLabel s.
Proof.
  unfold statusLabel. change (lit "_") with [underscore].
  change (lit " ") with [space].
  change (replace [underscore] [space] (c :: s))
    with (if (underscore =? c)%N && true then [space] ++ drop 1 (c :: s)
          else c :: replace [underscore] [space] s).
  rewrite andb_true_r. destruct (underscore =? c)%N; reflexivity.
Qed.

(** X7: the status a row prints has its first underscore turned into a
    space and nothing else changed: underscores after the first stay,
    and a status without underscore is printed as it is. *)
Theorem statusLabel_first_underscore :
  forall (before after : str),
    ~ In underscore before ->
    statusLabel (before ++ underscore :: after) = before ++ space :: after
    /\ statusLabel before = before.
Proof.
  intros before after. induction before as [|c s IH]; intros Hno.
  - split; [|reflexivity].
    simpl. now rewrite statusLabel_cons, N.eqb_refl.
  - simpl in Hno. destruct IH as [IH1 IH2]; [tauto|].
    simpl. rewrite !statusLabel_cons.
    destruct (underscore =? c)%N eqn:E.
    + apply N.eqb_eq in E. symmetry in E. tauto.
    + now rewrite IH1, IH2.
Qed.

Lemma statusLabel_first_underscore_witness :
  statusLabel (lit "hr_review") = lit "hr review"
  /\ statusLabel (lit "a_b_c") = lit "a b_c".
Proof.
  split.
  - refine (proj1 (statusLabel_first_underscore (lit "hr") (lit "review") _)).
    vm_compute. intuition discriminate.
  - refine (proj1 (statusLabel_first_underscore (lit "a") (lit "b_c") _)).
    vm_compute. intuition discriminate.
Defined.

(** X8: however its two requests turn out, [fetchDashboardData] leaves
    the page not loading, so that an empty table never says Loading
    afterwards, and it touches neither the tab nor the entry open in the
    modal: a refresh does not update an open modal. *)
Theorem fetchDashboardData_settles :
  forall (statsRes : response object)
         (candidatesRes : response (list CandidateWithAssessment)) (st : State),
    let st' := fst (fetchDashboardData statsRes candidatesRes st) in
    isLoading st' = false
    /\ selectedCandidate st' = selectedCandidate st
    /\ filter st' = filter st
    /\ emptyNotice st' <> Some "Loading..."
    /\ hd_error (snd (fetchDashboardData statsRes candidatesRes st)) =
         Some (Get stats_url).
Proof.
  intros statsRes candidatesRes st. cbv zeta.
  assert (H : isLoading (fst (fetchDashboardData statsRes candidatesRes st)) = false
              /\ selectedCandidate (fst (fetchDashboardData statsRes candidatesRes st))
                 = selectedCandidate st
              /\ filter (fst (fetchDashboardData statsRes candidatesRes st)) = filter st
              /\ hd_error (snd (fetchDashboardData statsRes candidatesRes st)) =
                   Some (Get stats_url)).
  { unfold fetchDashboardData, load. destruct st.
    destruct statsRes as [m|[|] [m|o]]; simpl; auto;
      destruct candidatesRes as [m'|[|] [m'|cs]]; simpl; auto. }
  destruct H as (Hl & Hs & Hf & Hhd). repeat split; try assumption.
  unfold emptyNotice. rewrite Hl. destruct (rows _); discriminate.
Qed.

(** X9: the two requests of [fetchDashboardData] share one [try]: when
    the stats request fails on the network or its body does not parse,
    the candidates are never requested and both the stats and the list
    stay as they were; an answer that is merely not [ok] is skipped and
    the candidates are still loaded; and stats that were loaded stay even
    if the candidates request then fails. *)
Theorem stats_failure_stops_the_load :
  forall (statsRes : response object)
         (candidatesRes : response (list CandidateWithAssessment)) (st : State),
    let st' := fst (fetchDashboardData statsRes candidatesRes st) in
    let es := snd (fetchDashboardData statsRes candidatesRes st) in
    (threw statsRes = true ->
     stats st' = stats st /\ candidates st' = candidates st
     /\ es = [Get stats_url; LogError "Failed to fetch dashboard data:"])
    /\ (forall o cs, statsRes = Answer false o -> candidatesRes = Answer true (Json cs) ->
        stats st' = stats st /\ candidates st' = cs
        /\ es = [Get stats_url; Get candidates_url])
    /\ (forall o, statsRes = Answer true (Json o) ->
        stats st' = Some o
        /\ (accepted candidatesRes = false -> candidates st' = candidates st)).
Proof.
  intros statsRes candidatesRes st. cbv zeta.
  unfold fetchDashboardData, load. destruct st. split; [|split].
  - intros Hfail. destruct statsRes as [m|[|] [m|o]]; simpl; auto; discriminate.
  - intros o cs -> ->. simpl. auto.
  - intros o ->. simpl.
    destruct candidatesRes as [m'|[|] [m'|cs]]; simpl;
      (split; [reflexivity|]); intros Hacc; try reflexivity; discriminate.
Qed.

Lemma stats_failure_stops_the_load_witness :
  fetchDashboardData (Unreachable (lit "Failed to fetch"))
                     (Answer true (Json [ada_approved])) reviewing =
    (reviewing, [Get stats_url; LogError "Failed to fetch dashboard data:"])
  /\ candidates (fst (fetchDashboardData (Answer false (Malformed []))
                        (Answer true (Json [ada_approved])) reviewing))
     = [ada_approved].
Proof.
  split.
  - pose proof (proj1 (stats_failure_stops_the_load
                         (Unreachable (lit "Failed to fetch"))
                         (Answer true (Json [ada_approved])) reviewing)) as H.
    cbv zeta in H. destruct H as (_ & _ & Hes); [reflexivity|].
    rewrite <- Hes. reflexivity.
  - exact (proj1 (proj2 (proj1 (proj2 (stats_failure_stops_the_load
             (Answer false (Malformed [])) (Answer true (Json [ada_approved]))
             reviewing)) (Malformed []) [ada_approved] eq_refl eq_refl))).
Defined.

Lemma fetchDashboardData_parts (statsRes : response object)
    (candidatesRes : response (list CandidateWithAssessment)) (st : State) :
  isLoading (fst (fetchDashboardData statsRes candidatesRes st)) = false
  /\ filter (fst (fetchDashboardData statsRes candidatesRes st)) = filter st
  /\ exists rest, snd (fetchDashboardData statsRes candidatesRes st) =
                  Get stats_url :: rest.
Proof.
  unfold fetchDashboardData, load. destruct st.
  destruct statsRes as [m|[|] [m|o]]; simpl; eauto;
    destruct candidatesRes as [m'|[|] [m'|cs]]; simpl; eauto.
Qed.

(** X10: [handleDecision] always posts the decision, by its name and
    with empty notes, to the report it is given.  Unless the answer is
    [ok] nothing else happens: the page stays as it is, modal included,
    and nothing is reloaded.  On an [ok] answer the modal is closed and
    the dashboard is reloaded. *)
Theorem handleDecision_outcomes :
  forall (res : response unit) (statsRes : response object)
         (candidatesRes : response (list CandidateWithAssessment))
         (reportId : str) (d : HRDecision) (st : State),
    let st' := fst (handleDecision res statsRes candidatesRes reportId d st) in
    let es := snd (handleDecision res statsRes candidatesRes reportId d st) in
    hd_error es =
      Some (PostDecision reportId {[ "decision" := Str (lit (decision_name d));
                                     "notes" := Str [] ]})
    /\ (accepted res = false -> st' = st /\ forall url, ~ In (Get url) es)
    /\ (accepted res = true ->
        selectedCandidate st' = None /\ isLoading st' = false
        /\ filter st' = filter st /\ In (Get stats_url) es).
Proof.
  intros res statsRes candidatesRes reportId d st. cbv zeta.
  pose proof (fetchDashboardData_parts statsRes candidatesRes st) as Hparts.
  unfold handleDecision. destruct res as [m|[|] j]; simpl.
  - split; [reflexivity|]. split; [|discriminate]. intros _. split; [reflexivity|].
    intros url [H|[H|H]]; try discriminate; contradiction.
  - destruct (fetchDashboardData statsRes candidatesRes st) as [st1 es1].
    simpl in *. destruct Hparts as (Hl & Hf & rest & Hes).
    split; [reflexivity|]. split; [discriminate|]. intros _.
    destruct st1; simpl in *. repeat split; try assumption.
    right. rewrite Hes. now left.
  - split; [reflexivity|]. split; [|discriminate]. intros _. split; [reflexivity|].
    intros url [H|H]; [discriminate|contradiction].
Qed.

Lemma handleDecision_outcomes_witness :
  fst (handleDecision (Answer false (Json tt)) (Unreachable []) (Unreachable [])
         (lit "r1") approve reviewing) = reviewing
  /\ selectedCandidate
       (fst (handleDecision (Answer true (Json tt)) (Unreachable []) (Unreachable [])
               (lit "r1") approve reviewing)) = None.
Proof.
  split.
  - pose proof (proj1 (proj2 (handleDecision_outcomes (Answer false (Json tt))
                  (Unreachable []) (Unreachable []) (lit "r1") approve reviewing)))
      as H.
    cbv zeta in H. exact (proj1 (H eq_refl)).
  - pose proof (proj2 (proj2 (handleDecision_outcomes (Answer true (Json tt))
                  (Unreachable []) (Unreachable []) (lit "r1") approve reviewing)))
      as H.
    cbv zeta in H. exact (proj1 (H eq_refl)).
Defined.

End DashboardMore.

(** * More of the chat page *)

Section ChatMore.
Import JS JSMore Client Chat ChatPage Cases.

(** X11: the chat page has a name of its own for an agent exactly when
    it has a colour of its own for it: [getAgentDisplayName] falls back
    to its default for the same agents for which [getAgentColor] falls
    back to its default. *)
Theorem agent_name_and_colour_agree :
  forall (agent : str),
    getAgentDisplayName agent = Str (lit "AI Assistant") <->
    getAgentColor agent = Str (lit "from-gray-500 to-gray-600").
Proof.
  intros agent. unfold getAgentDisplayName, getAgentColor, read_or, read.
  unfold agent_names, agent_colors, own.
  repeat match goal with
         | |- context [bool_decide (?a = agent)] =>
             destruct (bool_decide (a = agent));
             [split; intros H; apply (f_equal (fun v => is_str v "AI Assistant"
                                                         || is_str v "from-gray-500 to-gray-600")) in H;
              vm_compute in H; discriminate|]
         end.
  destruct (inherited agent); simpl; split; intros H; try discriminate; reflexivity.
Qed.

Lemma onmessage_sends_nothing (sid : str) (now : Z) (st : State) (data : object) :
  sent_frames (snd (onmessage sid now st data)) = [].
Proof.
  unfold onmessage.
  repeat match goal with |- context [if ?b then _ else _] => destruct b end;
    reflexivity.
Qed.

Lemma endSession_sends (st : State) (f : object) :
  In f (sent_frames (snd (endSession st))) -> f = end_frame.
Proof.
  unfold endSession.
  destruct (sessionId st) as [sid|]; [destruct (truthy_str sid)|];
    (destruct (ws st) as [sock|]; simpl;
     [unfold send, close; destruct (readyState sock); simpl|];
     intros Hf; decompose [or] Hf; subst; try contradiction; reflexivity).
Qed.

Lemma inputDisabled_false (st : State) :
  inputDisabled st = false ->
  isConnected st = true /\ isTyping st = false /\ isComplete st = false.
Proof.
  unfold inputDisabled. destruct (isConnected st), (isTyping st), (isComplete st);
    simpl; intros H; try discriminate; auto.
Qed.

Lemma sendDisabled_false (st : State) :
  sendDisabled st = false -> inputDisabled st = false.
Proof.
  unfold sendDisabled, inputDisabled.
  destruct (truthy_str (trim (inputValue st))), (isConnected st), (isTyping st),
    (isComplete st); simpl; intros H; try discriminate; reflexivity.
Qed.

(** What it takes for a step of the chat page to send a [message]
    frame. *)
Lemma step_message_frame :
  forall (sid : str) (now : Z) (st st' : State) (ev : event)
         (es : list effect) (f : object),
    step sid now st ev = Some (st', es) -> In f (sent_frames es) ->
    is_str (get "type" f) "message" = true ->
    (ev = ClickSend \/ ev = KeyPress (lit "Enter") false)
    /\ isConnected st = true /\ isTyping st = false /\ isComplete st = false
    /\ trim (inputValue st) <> []
    /\ f = {[ "type" := Str (lit "message"); "content" := Str (inputValue st) ]}.
Proof.
  intros sid now st st' ev es f Hstep Hf Hkind.
  destruct ev; simpl in Hstep.
  - destruct (ws st); [|discriminate].
    destruct (bool_decide _); [|discriminate]. injection Hstep as <- <-.
    contradiction.
  - destruct (ws st); [|discriminate].
    destruct (_ || _); [|discriminate]. injection Hstep as Hstep.
    pose proof (onmessage_sends_nothing sid now st data) as Hnone.
    rewrite Hstep in Hnone. simpl in Hnone. rewrite Hnone in Hf. contradiction.
  - destruct (ws st); [|discriminate].
    destruct (bool_decide _); [discriminate|]. injection Hstep as <- <-.
    contradiction.
  - destruct (ws st); [|discriminate]. injection Hstep as <- <-. contradiction.
  - destruct (inputDisabled st); [discriminate|]. injection Hstep as <- <-.
    contradiction.
  - destruct (inputDisabled st) eqn:Hdis; [discriminate|].
    apply inputDisabled_false in Hdis. destruct Hdis as (Hc & Ht & Hd).
    unfold handleKeyPress in Hstep.
    destruct (bool_decide (key = lit "Enter")) eqn:Hkey; simpl in Hstep;
      [destruct shiftKey; simpl in Hstep|];
      injection Hstep as Hstep; try (subst es; contradiction).
    apply bool_decide_eq_true in Hkey. subst key.
    assert (Hsent : In f (sent_frames (snd (sendMessage now st))))
      by (rewrite Hstep; exact Hf).
    apply sendMessage_sent in Hsent. destruct Hsent as (Htrim & -> & _).
    repeat split; auto.
  - destruct (sendDisabled st) eqn:Hdis; [discriminate|].
    apply sendDisabled_false, inputDisabled_false in Hdis.
    destruct Hdis as (Hc & Ht & Hd). injection Hstep as Hstep.
    assert (Hsent : In f (sent_frames (snd (sendMessage now st))))
      by (rewrite Hstep; exact Hf).
    apply sendMessage_sent in Hsent. destruct Hsent as (Htrim & -> & _).
    repeat split; auto.
  - injection Hstep as Hstep.
    assert (Hsent : In f (sent_frames (snd (endSession st))))
      by (rewrite Hstep; exact Hf).
    apply endSession_sends in Hsent. subst f. discriminate.
Qed.

(** X12: in the event loop of the chat page, a [message] frame goes out
    only on a click on the send button or on Enter without Shift, only
    while the page is connected, the assistant is not typing and the
    interview is not complete, and it carries the input exactly as
    typed, which is non-empty after trimming. *)
Theorem message_sent_only_when_ready :
  forall (sid : str) (now : Z) (st st' : State) (ev : event)
         (es : list effect) (f : object),
    step sid now st ev = Some (st', es) -> In f (message_frames es) ->
    (ev = ClickSend \/ ev = KeyPress (lit "Enter") false)
    /\ isConnected st = true /\ isTyping st = false /\ isComplete st = false
    /\ trim (inputValue st) <> []
    /\ f = {[ "type" := Str (lit "message"); "content" := Str (inputValue st) ]}.
Proof.
  intros sid now st st' ev es f Hstep Hf.
  unfold message_frames in Hf. apply filter_In in Hf. destruct Hf as [Hf Hkind].
  exact (step_message_frame sid now st st' ev es f Hstep Hf Hkind).
Qed.

Lemma message_sent_only_when_ready_witness :
  Chat.isTyping Samples.chat_typed = false
  /\ Chat.isComplete Samples.chat_typed = false.
Proof.
  destruct (message_sent_only_when_ready (lit "s1") 0 Samples.chat_typed
              (fst (sendMessage 0 Samples.chat_typed)) ClickSend
              (snd (sendMessage 0 Samples.chat_typed)) Samples.hi_frame)
    as (_ & _ & Ht & Hc & _).
  - reflexivity.
  - vm_compute. tauto.
  - split; assumption.
Defined.

(** X13: a message is never sent twice by sending twice: once
    [sendMessage] has put a frame on the socket the input is empty, and
    a second [sendMessage] right after it sends nothing and changes
    nothing. *)
Theorem sendMessage_twice_sends_once :
  forall (now now' : Z) (st : State),
    sent_frames (snd (sendMessage now st)) <> [] ->
    inputValue (fst (sendMessage now st)) = []
    /\ sendMessage now' (fst (sendMessage now st)) = (fst (sendMessage now st), []).
Proof.
  intros now now' st. unfold sendMessage.
  destruct (ws st) as [sock|] eqn:Hws; [|intros H; now contradiction H].
  destruct (negb (truthy_str (trim (inputValue st))) || negb (isConnected st));
    [intros H; now contradiction H|].
  unfold send. destruct (readyState sock); simpl; intros H;
    try (now contradiction H).
  destruct st; simpl in *. rewrite Hws. split; reflexivity.
Qed.

Lemma sendMessage_twice_sends_once_witness :
  sendMessage 1 (fst (sendMessage 0 Samples.chat_typed)) =
    (fst (sendMessage 0 Samples.chat_typed), []).
Proof.
  refine (proj2 (sendMessage_twice_sends_once 0 1 Samples.chat_typed _)).
  discriminate.
Defined.

Lemma sendMessage_messages (now : Z) (st : State) :
  messages (fst (sendMessage now st)) = messages st
  \/ messages (fst (sendMessage now st))
     = messages st ++ [typed now (inputValue st)].
Proof.
  unfold sendMessage. destruct (ws st) as [sock|]; [|now left].
  destruct (_ || _); [now left|].
  destruct (send sock _); destruct st; right; reflexivity.
Qed.

(** X14: the handlers of a chat session only append to the
    conversation.  Every event of the session's loop (the socket's
    events, typing, a key, Send, End) leaves the messages shown so far in
    place and in order, and adds at most one: the assistant's reply, and
    only on a [response] frame, or the user's line as typed, and only on
    Send or on Enter without Shift.  (Only [startSession], which is not
    one of these events, replaces the list, by the greeting.) *)
Theorem session_events_append :
  forall (sid : str) (now : Z) (st st' : State) (ev : event) (es : list effect),
    step sid now st ev = Some (st', es) ->
    messages st' = messages st
    \/ (exists data, ev = WsMessage data
          /\ is_str (get "type" data) "response" = true
          /\ messages st' = messages st ++ [reply now data])
    \/ ((ev = ClickSend \/ ev = KeyPress (lit "Enter") false)
        /\ messages st' = messages st ++ [typed now (inputValue st)]).
Proof.
  intros sid now st st' ev es Hstep.
  destruct ev; simpl in Hstep.
  - destruct (ws st); [|discriminate]. destruct (bool_decide _); [|discriminate].
    injection Hstep as <- _. left. destruct st; reflexivity.
  - destruct (ws st); [|discriminate]. destruct (_ || _); [|discriminate].
    injection Hstep as Hstep. apply (f_equal fst) in Hstep. simpl in Hstep.
    subst st'. unfold onmessage.
    destruct (is_str (get "type" data) "typing"); [left; destruct st; reflexivity|].
    destruct (is_str (get "type" data) "response") eqn:Hresponse.
    + right. left. exists data. split; [reflexivity|]. split; [exact Hresponse|].
      destruct (truthy (get "is_complete" data)); destruct st; reflexivity.
    + left. destruct (is_str (get "type" data) "ready"); reflexivity.
  - destruct (ws st); [|discriminate]. destruct (bool_decide _); [discriminate|].
    injection Hstep as <- _. left. destruct st; reflexivity.
  - destruct (ws st); [|discriminate]. injection Hstep as <- _. now left.
  - destruct (inputDisabled st); [discriminate|]. injection Hstep as <- _.
    left. destruct st; reflexivity.
  - destruct (inputDisabled st); [discriminate|]. unfold handleKeyPress in Hstep.
    destruct (bool_decide (key = lit "Enter") && negb shiftKey) eqn:Hkey;
      simpl in Hstep.
    + apply andb_true_iff in Hkey. destruct Hkey as [Hk Hs].
      apply bool_decide_eq_true in Hk. apply negb_true_iff in Hs. subst key shiftKey.
      injection Hstep as Hstep. apply (f_equal fst) in Hstep. simpl in Hstep.
      subst st'. destruct (sendMessage_messages now st) as [H|H]; auto.
    + injection Hstep as <- _. now left.
  - destruct (sendDisabled st); [discriminate|]. injection Hstep as Hstep.
    apply (f_equal fst) in Hstep. simpl in Hstep. subst st'.
    destruct (sendMessage_messages now st) as [H|H]; auto.
  - injection Hstep as Hstep. apply (f_equal fst) in Hstep. simpl in Hstep.
    subst st'. left. unfold endSession.
    destruct (ws st) as [sock|]; [|reflexivity].
    destruct (send sock end_frame); [|reflexivity].
    destruct (close sock). destruct st; reflexivity.
Qed.

Lemma session_events_append_witness :
  exists st' es,
    step (lit "s1") 0 Samples.chat_typed ClickSend = Some (st', es)
    /\ messages st' = [typed 0 (lit " hi ")].
Proof.
  destruct (step (lit "s1") 0 Samples.chat_typed ClickSend) as [[st' es]|] eqn:Hstep;
    [|vm_compute in Hstep; discriminate].
  exists st', es. split; [reflexivity|].
  destruct (session_events_append _ _ _ _ _ _ Hstep) as [H|[(data & Hev & _)|[_ H]]].
  - exfalso. vm_compute in Hstep. injection Hstep as <- _. discriminate.
  - discriminate.
  - exact H.
Defined.

Lemma no_message_frames (es : list effect) :
  (forall f, ~ In f (message_frames es)) -> message_frames es = [].
Proof.
  destruct (message_frames es) as [|f fs]; [reflexivity|].
  intros H. exfalso. apply (H f). now left.
Qed.

Lemma step_complete (sid : str) (now : Z) (st st' : State) (ev : event)
    (es : list effect) :
  isComplete st = true -> step sid now st ev = Some (st', es) ->
  isComplete st' = true /\ inputValue st' = inputValue st.
Proof.
  intros Hc Hstep.
  assert (Hdis : inputDisabled st = true)
    by (unfold inputDisabled; rewrite Hc; now rewrite !orb_true_r).
  assert (Hsend : sendDisabled st = true)
    by (unfold sendDisabled; rewrite Hc; now rewrite !orb_true_r).
  destruct ev; simpl in Hstep; rewrite ?Hdis, ?Hsend in Hstep; try discriminate.
  - destruct (ws st); [|discriminate]. destruct (bool_decide _); [|discriminate].
    injection Hstep as <- _. destruct st; auto.
  - destruct (ws st); [|discriminate]. destruct (_ || _); [|discriminate].
    injection Hstep as Hstep. apply (f_equal fst) in Hstep. simpl in Hstep.
    subst st'. unfold onmessage.
    repeat match goal with |- context [if ?b then _ else _] => destruct b end;
      destruct st; simpl in *; auto.
  - destruct (ws st); [|discriminate]. destruct (bool_decide _); [discriminate|].
    injection Hstep as <- _. destruct st; auto.
  - destruct (ws st); [|discriminate]. injection Hstep as <- _. auto.
  - injection Hstep as Hstep. apply (f_equal fst) in Hstep. simpl in Hstep.
    subst st'. unfold endSession. destruct (ws st) as [sock|]; [|auto].
    destruct (send sock end_frame); [|auto]. destruct (close sock).
    destruct st; auto.
Qed.

(** X15: completion latches on the chat page: from a state marked
    complete, every state of every run is marked complete, the input
    keeps its text, and no [message] frame is sent any more. *)
Theorem chat_completion_latches :
  forall (sid : str) (now : Z) (evs : list event) (st : State)
         (trace : list (State * list effect)),
    isComplete st = true -> run sid now st evs = Some trace ->
    Forall (fun r => isComplete (fst r) = true
                     /\ inputValue (fst r) = inputValue st
                     /\ message_frames (snd r) = []) trace.
Proof.
  intros sid now evs. induction evs as [|ev evs IH]; intros st trace Hc Hrun;
    simpl in Hrun.
  - injection Hrun as <-. constructor.
  - destruct (step sid now st ev) as [[st' es]|] eqn:Hstep; [|discriminate].
    simpl in Hrun.
    destruct (run sid now st' evs) as [rest|] eqn:Hrest; [|discriminate].
    injection Hrun as <-.
    destruct (step_complete _ _ _ _ _ _ Hc Hstep) as [Hc' Hin].
    constructor.
    + simpl. split; [assumption|]. split; [assumption|].
      apply no_message_frames. intros f Hf.
      unfold message_frames in Hf. apply filter_In in Hf. destruct Hf as [Hf Hkind].
      destruct (step_message_frame _ _ _ _ _ _ _ Hstep Hf Hkind)
        as (_ & _ & _ & Habs & _).
      congruence.
    + eapply List.Forall_impl; [|apply (IH _ _ Hc' Hrest)].
      intros r (H1 & H2 & H3). rewrite <- Hin. auto.
Qed.

Lemma chat_completion_latches_witness :
  exists trace,
    run (lit "s1") 0 (set_isComplete true Samples.chat_typed)
        [WsMessage Samples.typing_frame; ClickEnd] = Some trace
    /\ Forall (fun r => isComplete (fst r) = true) trace.
Proof.
  destruct (run (lit "s1") 0 (set_isComplete true Samples.chat_typed)
              [WsMessage Samples.typing_frame; ClickEnd]) as [trace|] eqn:Hrun;
    [|vm_compute in Hrun; discriminate].
  exists trace. split; [reflexivity|].
  eapply List.Forall_impl;
    [|exact (chat_completion_latches (lit "s1") 0 _
               (set_isComplete true Samples.chat_typed) trace eq_refl Hrun)].
  intros r H. exact (proj1 H).
Defined.

(** X16: between a click on End and the socket's close event the page
    still counts as connected: a line sent in that window is added to the
    conversation and cleared from the input, but the closing socket
    discards it and nothing goes out. *)
Theorem message_after_end_is_dropped :
  forall (sid : str) (now : Z) (st : State) (sock : WebSocket),
    ws st = Some sock -> readyState sock = OPEN -> isConnected st = true ->
    isTyping st = false -> isComplete st = false -> trim (inputValue st) <> [] ->
    exists st1 es1 st2,
      run sid now st [ClickEnd; ClickSend] = Some [(st1, es1); (st2, [])]
      /\ In end_frame (sent_frames es1)
      /\ messages st2 = messages st ++ [typed now (inputValue st)]
      /\ inputValue st2 = [].
Proof.
  intros sid now st sock Hws Hopen Hconn Htyping Hcomplete Htrim.
  destruct st as [msgs input conn typing sess agent complete w].
  destruct sock as [wsid rs]. simpl in *. subst.
  unfold sendDisabled, sendMessage, endSession, send, close. simpl.
  destruct (trim input) eqn:E; [contradiction|]. simpl.
  destruct sess; simpl; eexists _, _, _;
    (split; [reflexivity|]); (split; [now left|]); split; reflexivity.
Qed.

Lemma message_after_end_is_dropped_witness :
  exists st1 es1 st2,
    run (lit "s1") 0 Samples.chat_typed [ClickEnd; ClickSend]
      = Some [(st1, es1); (st2, [])]
    /\ inputValue st2 = [].
Proof.
  destruct (message_after_end_is_dropped (lit "s1") 0 Samples.chat_typed
              Samples.open_socket eq_refl eq_refl eq_refl eq_refl eq_refl)
    as (st1 & es1 & st2 & Hrun & _ & _ & Hinput).
  - discriminate.
  - exists st1, es1, st2. split; assumption.
Defined.

Lemma chat_step_gone (sid : str) (now : Z) (st st' : State) (ev : event)
    (es : list effect) :
  gone (ws st) -> step sid now st ev = Some (st', es) ->
  gone (ws st') /\ sent_frames es = []
  /\ (isConnected st = false -> isConnected st' = false).
Proof.
  intros Hgone Hstep.
  assert (Hsend : gone (ws (fst (sendMessage now st)))
                  /\ sent_frames (snd (sendMessage now st)) = []
                  /\ (isConnected st = false ->
                      isConnected (fst (sendMessage now st)) = false)).
  { unfold sendMessage. destruct (ws st) as [sock|] eqn:Hws;
      [|simpl; rewrite Hws; auto].
    destruct (_ || _); [simpl; rewrite Hws; auto|]. unfold send. simpl in Hgone.
    destruct Hgone as [E | E]; rewrite E; destruct st; simpl in *;
      rewrite Hws; simpl; auto. }
  destruct ev; simpl in Hstep.
  - destruct (ws st) as [sock|]; [|discriminate]. simpl in Hgone.
    destruct (bool_decide (readyState sock = CONNECTING)) eqn:E; [|discriminate].
    apply bool_decide_eq_true in E. destruct Hgone; congruence.
  - destruct (ws st) as [sock|] eqn:Hws; [|discriminate].
    destruct (_ || _); [|discriminate]. injection Hstep as Hstep.
    pose proof (onmessage_sends_nothing sid now st data) as Hnone.
    rewrite Hstep in Hnone. split; [|split; [exact Hnone|]];
      apply (f_equal fst) in Hstep; simpl in Hstep; subst st';
      unfold onmessage;
      repeat match goal with |- context [if ?b then _ else _] => destruct b end;
      destruct st; simpl in *; rewrite ?Hws; auto.
  - destruct (ws st) as [sock|]; [|discriminate].
    destruct (bool_decide _); [discriminate|]. injection Hstep as <- <-.
    destruct st; simpl. auto.
  - destruct (ws st) as [sock|] eqn:Hws; [|discriminate]. injection Hstep as <- <-.
    rewrite Hws. auto.
  - destruct (inputDisabled st); [discriminate|]. injection Hstep as <- <-.
    destruct st; simpl in *. auto.
  - destruct (inputDisabled st); [discriminate|]. unfold handleKeyPress in Hstep.
    destruct (_ && _); simpl in Hstep.
    + injection Hstep as Hstep. rewrite Hstep in Hsend. exact Hsend.
    + injection Hstep as <- <-. auto.
  - destruct (sendDisabled st); [discriminate|]. injection Hstep as Hstep.
    rewrite Hstep in Hsend. exact Hsend.
  - injection Hstep as Hstep.
    assert (H1 : st' = fst (endSession st)) by now rewrite Hstep.
    assert (H2 : es = snd (endSession st)) by now rewrite Hstep.
    subst st' es. clear Hstep. unfold endSession, send, close.
    pose proof (chat_post_silent st) as Hpost.
    destruct (ws st) as [sock|] eqn:Hws; [|simpl; rewrite Hws; auto].
    simpl in Hgone.
    destruct Hgone as [E | E]; rewrite E; simpl; rewrite Hpost;
      destruct st; simpl in *; rewrite ?Hws; simpl; auto.
Qed.

(** X17: no handler of a chat session reopens or replaces the socket.
    While the socket of [wsRef] is closing, closed or absent, every event
    of the session's loop leaves it so, puts no frame on the wire, and
    cannot make the page show as connected; and a click on End takes any
    socket that has opened into that state.  (Only [startSession], which
    is not one of these events, puts a new socket in [wsRef].) *)
Theorem chat_socket_not_reopened :
  (forall (sid : str) (now : Z) (st st' : State) (ev : event) (es : list effect),
      gone (ws st) -> step sid now st ev = Some (st', es) ->
      gone (ws st') /\ sent_frames es = []
      /\ (isConnected st = false -> isConnected st' = false))
  /\ (forall (st0 : State) (sock : WebSocket),
        ws st0 = Some sock -> readyState sock <> CONNECTING ->
        gone (ws (fst (endSession st0)))).
Proof.
  split.
  - intros sid now st st' ev es Hgone Hstep.
    exact (chat_step_gone sid now st st' ev es Hgone Hstep).
  - intros st0 sock Hws Hready. unfold endSession, send, close. rewrite Hws.
    destruct (readyState sock) eqn:E; try contradiction;
      destruct st0; simpl; rewrite ?E; auto.
Qed.

Lemma chat_socket_not_reopened_witness :
  gone (ws chat_ended)
  /\ exists st' es,
       step (lit "s1") 0 chat_ended ClickSend = Some (st', es)
       /\ gone (ws st') /\ sent_frames es = [].
Proof.
  destruct chat_socket_not_reopened as [Hstay Hend].
  assert (Hgone : gone (ws chat_ended)).
  { refine (Hend Samples.chat_typed Samples.open_socket eq_refl _). discriminate. }
  split; [exact Hgone|].
  destruct (step (lit "s1") 0 chat_ended ClickSend) as [[st' es]|] eqn:Hstep;
    [|vm_compute in Hstep; discriminate].
  exists st', es. split; [reflexivity|].
  destruct (Hstay _ _ _ _ _ _ Hgone Hstep) as (H1 & H2 & _). auto.
Defined.

End ChatMore.

(** * More of the voice page *)

Section VoiceMore.
Import JS JSMore Client Voice VoicePage Cases.

(** X18: in the event loop of the voice page the microphone is asked
    for only by a click on the microphone button, and only while the page
    is connected, the avatar is neither speaking nor thinking, the
    interview is not complete and the page does not show a recording. *)
Theorem microphone_asked_through_the_button :
  forall (hasSpeech : bool) (now : Z) (st st' : State) (ev : event)
         (es : list effect),
    step hasSpeech now st ev = Some (st', es) -> In GetUserMedia es ->
    ev = ClickMic /\ isRecording st = false
    /\ isConnected st = true /\ avatarState st <> Str (lit "speaking")
    /\ avatarState st <> Str (lit "thinking") /\ isComplete st = false.
Proof.
  intros hasSpeech now st st' ev es Hstep Hin.
  assert (Hev : ev = ClickMic).
  { destruct ev; simpl in Hstep; try reflexivity; exfalso.
    - destruct (ws st) as [sock|]; [|discriminate].
      destruct (bool_decide _); [|discriminate].
      injection Hstep as <- <-. simpl in Hin. intuition discriminate.
    - destruct (ws st) as [sock|]; [|discriminate].
      destruct (_ || _); [|discriminate]. injection Hstep as Hstep.
      revert Hin. unfold onmessage, say, playAudio, speakText in Hstep.
      repeat match type of Hstep with
             | context [if ?b then _ else _] => destruct b
             end; injection Hstep as <- <-; simpl; intuition discriminate.
    - destruct (ws st) as [sock|]; [|discriminate].
      destruct (bool_decide _); [discriminate|].
      injection Hstep as <- <-. simpl in Hin. intuition discriminate.
    - injection Hstep as <- <-. simpl in Hin. contradiction.
    - revert Hin. unfold endSession, send, close in Hstep.
      destruct (ws st) as [sock|]; [destruct (readyState sock)|];
        injection Hstep as <- <-; simpl; intuition discriminate.
    - destruct (media_requests st); [discriminate|].
      injection Hstep as <- <-. simpl in Hin. intuition discriminate.
    - destruct (media_requests st); [discriminate|].
      injection Hstep as <- <-. simpl in Hin. intuition discriminate.
    - destruct (recorders st !! h) as [[| |]|]; try discriminate.
      injection Hstep as <- <-. revert Hin. unfold onstop.
      destruct (ws st) as [sock|]; [destruct (bool_decide _)|];
        simpl; intuition discriminate.
    - destruct (playbacks st); [discriminate|].
      injection Hstep as <- <-. simpl in Hin. contradiction. }
  subst ev. split; [reflexivity|].
  destruct (click_asks_when_enabled _ _ _ _ _ Hstep Hin) as [Hmic Hrec].
  split; [assumption|]. now apply micDisabled_false.
Qed.

Lemma microphone_asked_through_the_button_witness :
  isConnected Samples.voice_listening = true
  /\ isComplete Samples.voice_listening = false.
Proof.
  destruct (microphone_asked_through_the_button true 0 Samples.voice_listening
              (fst (startRecording_request Samples.voice_listening)) ClickMic
              [GetUserMedia]) as (_ & _ & Hc & _ & _ & Hd).
  - reflexivity.
  - now left.
  - split; assumption.
Defined.

(** X19: a recorder is started only when the browser grants a pending
    microphone request, whatever the page shows by then.  Each grant
    starts exactly one recorder, a new one that takes the ref: the
    number of recorders capturing goes up by one, and the page then
    shows a recording and the avatar listening. *)
Theorem recorders_start_on_grant :
  forall (hasSpeech : bool) (now : Z) (st st' : State) (ev : event)
         (es : list effect) (h : nat),
    step hasSpeech now st ev = Some (st', es) -> In (RecorderStart h) es ->
    ev = MediaGranted /\ 0 < media_requests st
    /\ capturing st' = S (capturing st)
    /\ h = length (recorders st) /\ mediaRecorderRef st' = Some h
    /\ isRecording st' = true /\ avatarState st' = Str (lit "listening").
Proof.
  intros hasSpeech now st st' ev es h Hstep Hin.
  destruct (recorder_started_by_grant _ _ _ _ _ _ _ Hstep Hin) as (-> & Hreq & Hcap).
  split; [reflexivity|]. split; [assumption|]. split; [assumption|].
  simpl in Hstep. destruct (media_requests st) as [|n]; [discriminate|].
  injection Hstep as <- <-. destruct Hin as [Hh|[]]. injection Hh as <-.
  destruct st; simpl. repeat split; reflexivity.
Qed.

Lemma recorders_start_on_grant_witness :
  capturing voice_recording = 1.
Proof.
  refine (proj1 (proj2 (proj2 (recorders_start_on_grant true 0
            (set_media_requests 1 Samples.voice_listening) voice_recording
            MediaGranted [RecorderStart 0] 0 _ _)))).
  - reflexivity.
  - now left.
Defined.



Lemma voice_onmessage_frame (hasSpeech muted : bool) (now : Z) (st : State)
    (data : object) :
  ws (fst (onmessage hasSpeech muted now st data)) = ws st
  /\ isConnected (fst (onmessage hasSpeech muted now st data)) = isConnected st
  /\ (isComplete st = true ->
      isComplete (fst (onmessage hasSpeech muted now st data)) = true)
  /\ sent_frames (snd (onmessage hasSpeech muted now st data)) = [].
Proof.
  unfold onmessage, say, playAudio, speakText.
  repeat match goal with |- context [if ?b then _ else _] => destruct b end;
    destruct st; simpl; auto.
Qed.

(** What one turn of the voice page's event loop keeps. *)
Lemma voice_step_frame (hasSpeech : bool) (now : Z) (st st' : State)
    (ev : event) (es : list effect) :
  step hasSpeech now st ev = Some (st', es) ->
  (isComplete st = true -> isComplete st' = true)
  /\ (gone (ws st) ->
      gone (ws st') /\ sent_frames es = []
      /\ (isConnected st = false -> isConnected st' = false)).
Proof.
  intros Hstep. destruct ev; simpl in Hstep.
  - destruct (ws st) as [sock|] eqn:Hws; [|discriminate].
    destruct (bool_decide (readyState sock = CONNECTING)) eqn:E; [|discriminate].
    apply bool_decide_eq_true in E. injection Hstep as <- <-.
    split; [destruct st; auto|]. simpl. intros [H|H]; congruence.
  - destruct (ws st) as [sock|] eqn:Hws; [|discriminate].
    destruct (_ || _); [|discriminate]. injection Hstep as Hstep.
    destruct (voice_onmessage_frame hasSpeech false now st data)
      as (Hw & Hc & Hd & Hs).
    rewrite Hstep in Hw, Hc, Hd, Hs. simpl in *.
    split; [assumption|]. intros Hgone. rewrite Hw, Hws, Hc. auto.
  - destruct (ws st) as [sock|] eqn:Hws; [|discriminate].
    destruct (bool_decide _); [discriminate|]. injection Hstep as <- <-.
    split; [destruct st; auto|]. intros _. destruct st; simpl. auto.
  - destruct (micDisabled st); [discriminate|].
    unfold stopRecording, startRecording_request in Hstep.
    destruct (isRecording st); [destruct (mediaRecorderRef st)|];
      injection Hstep as <- <-; destruct st; simpl; auto.
  - injection Hstep as <- <-. destruct st; simpl; auto.
  - unfold endSession, send, close in Hstep.
    destruct (ws st) as [sock|] eqn:Hws; [destruct (readyState sock) eqn:E|];
      injection Hstep as <- <-; (split; [destruct st; auto|]); simpl;
      try (intros [H|H]; congruence); destruct st; simpl in *; rewrite ?Hws;
      simpl; rewrite ?E; auto.
  - destruct (media_requests st); [discriminate|]. injection Hstep as <- <-.
    destruct st; simpl; auto.
  - destruct (media_requests st); [discriminate|]. injection Hstep as <- <-.
    destruct st; simpl; auto.
  - destruct (recorders st !! h) as [[| |]|]; try discriminate.
    injection Hstep as <- <-. split; [destruct st; auto|].
    intros Hgone. unfold onstop.
    destruct (ws st) as [sock|] eqn:Hws; destruct st; simpl in *; rewrite ?Hws;
      [|auto].
    destruct Hgone as [E|E]; rewrite E; simpl; auto.
  - destruct (playbacks st); [discriminate|]. injection Hstep as <- <-.
    destruct st; simpl; auto.
Qed.

Lemma onstop_gone (base64Audio : str) (st : State) :
  gone (ws st) -> sent_frames (onstop base64Audio st) = [].
Proof.
  unfold onstop. destruct (ws st) as [sock|]; simpl; [|reflexivity].
  intros [E|E]; rewrite E; reflexivity.
Qed.

(** X21: no handler of a voice session reopens or replaces the socket,
    and leaving the page drops the recording.  While the socket of
    [wsRef] is closing, closed or absent, every event of the session's
    loop leaves it so and puts no frame on the wire, the [audio] frame of
    a recording that stops then included.  The cleanup of the page's
    effect always takes the socket there and itself sends nothing, so
    the [onstop] of a recording it interrupts sends no [audio] frame.
    (Only [startSession], which is not one of these events, puts a new
    socket in [wsRef].) *)
Theorem voice_socket_not_reopened :
  (forall (hasSpeech : bool) (now : Z) (st st' : State) (ev : event)
          (es : list effect),
      gone (ws st) -> step hasSpeech now st ev = Some (st', es) ->
      gone (ws st') /\ sent_frames es = [])
  /\ (forall (st0 : State) (base64Audio : str),
        gone (ws (fst (cleanup st0)))
        /\ sent_frames (snd (cleanup st0)) = []
        /\ sent_frames (onstop base64Audio (fst (cleanup st0))) = []).
Proof.
  assert (Hcleanup : forall st0, gone (ws (fst (cleanup st0)))
                                 /\ sent_frames (snd (cleanup st0)) = []).
  { intros st0. unfold cleanup, close.
    destruct st0 as [a b c d e f g h w m r q pb]. simpl.
    destruct w as [sock|]; simpl.
    - destruct (readyState sock) eqn:E; simpl; destruct m; simpl; rewrite ?E; auto.
    - destruct m; simpl; auto. }
  split.
  - intros hasSpeech now st st' ev es Hgone Hstep.
    destruct (proj2 (voice_step_frame _ _ _ _ _ _ Hstep) Hgone) as (Hg & Hs & _).
    auto.
  - intros st0 base64Audio. destruct (Hcleanup st0) as [Hg Hs].
    split; [exact Hg|]. split; [exact Hs|]. now apply onstop_gone.
Qed.

Lemma voice_socket_not_reopened_witness :
  gone (ws (fst (cleanup voice_recording)))
  /\ exists st' es,
       step true 0 (fst (cleanup voice_recording)) (RecorderStopped 0 (lit "UklGRg"))
         = Some (st', es)
       /\ gone (ws st') /\ sent_frames es = [].
Proof.
  destruct voice_socket_not_reopened as [Hstay Hleave].
  pose proof (proj1 (Hleave voice_recording [])) as Hgone.
  split; [exact Hgone|].
  destruct (step true 0 (fst (cleanup voice_recording))
              (RecorderStopped 0 (lit "UklGRg"))) as [[st' es]|] eqn:Hstep;
    [|vm_compute in Hstep; discriminate].
  exists st', es. split; [reflexivity|].
  exact (Hstay _ _ _ _ _ _ Hgone Hstep).
Defined.


Lemma micDisabled_complete (st : State) :
  isComplete st = true -> micDisabled st = true.
Proof. intros H. unfold micDisabled. rewrite H. now rewrite !orb_true_r. Qed.



(** X23: completion latches on the voice page: from a state marked
    complete, every state of every run is marked complete and the
    microphone button takes no click, so that no new recording is asked
    for and a recording still running cannot be stopped from the page. *)
Theorem voice_completion_latches :
  forall (hasSpeech : bool) (now : Z) (evs : list event) (st : State)
         (trace : list (State * list effect)),
    isComplete st = true -> run hasSpeech now st evs = Some trace ->
    Forall (fun r => isComplete (fst r) = true
                     /\ step hasSpeech now (fst r) ClickMic = None) trace
    /\ ~ In ClickMic evs.
Proof.
  intros hasSpeech now evs.
  induction evs as [|ev evs IH]; intros st trace Hc Hrun; simpl in Hrun.
  - injection Hrun as <-. split; [constructor|intros []].
  - destruct (step hasSpeech now st ev) as [[st' es]|] eqn:Hstep; [|discriminate].
    simpl in Hrun.
    destruct (run hasSpeech now st' evs) as [rest|] eqn:Hrest; [|discriminate].
    injection Hrun as <-.
    pose proof (proj1 (voice_step_frame _ _ _ _ _ _ Hstep) Hc) as Hc'.
    destruct (IH _ _ Hc' Hrest) as [Hall Hno]. split.
    + constructor; [|exact Hall].
      simpl. rewrite (micDisabled_complete _ Hc'). auto.
    + intros [Hev|Hin]; [|contradiction]. subst ev. simpl in Hstep.
      rewrite (micDisabled_complete _ Hc) in Hstep. discriminate.
Qed.

Lemma voice_completion_latches_witness :
  exists trace,
    run true 0 (set_isComplete true voice_recording)
        [WsMessage Samples.thinking_status; ClickEnd] = Some trace
    /\ Forall (fun r => isComplete (fst r) = true) trace.
Proof.
  destruct (run true 0 (set_isComplete true voice_recording)
              [WsMessage Samples.thinking_status; ClickEnd]) as [trace|] eqn:Hrun;
    [|vm_compute in Hrun; discriminate].
  exists trace. split; [reflexivity|].
  eapply List.Forall_impl;
    [|exact (proj1 (voice_completion_latches true 0 _
                      (set_isComplete true voice_recording) trace eq_refl Hrun))].
  intros r H. exact (proj1 H).
Defined.

Lemma split_without (sep : N) (s : str) : ~ In sep s -> split sep s = [s].
Proof.
  induction s as [|c s IH]; simpl; intros Hno; [reflexivity|].
  destruct (c =? sep)%N eqn:E.
  - apply N.eqb_eq in E. tauto.
  - rewrite IH by tauto. reflexivity.
Qed.

Lemma split_at_first (sep : N) (a b : str) :
  ~ In sep a -> split sep (a ++ sep :: b) = a :: split sep b.
Proof.
  induction a as [|c a IH]; simpl; intros Hno.
  - now rewrite N.eqb_refl.
  - destruct (c =? sep)%N eqn:E.
    + apply N.eqb_eq in E. tauto.
    + rewrite IH by tauto. reflexivity.
Qed.

(** X24: [blobToBase64] takes the part of the reader's data URL between
    the first and the second comma.  Of the data URL of a blob whose type
    and payload hold no comma (base64 never does) it returns the
    payload, the empty payload of an empty recording included; of a
    result without comma it returns [undefined]. *)
Theorem base64_part_of_dataURL :
  forall (type payload : str),
    ~ In comma type -> ~ In comma payload ->
    base64_part (dataURL type payload) = Some payload
    /\ base64_part type = None.
Proof.
  intros type payload Htype Hpayload. unfold base64_part, dataURL. split.
  - change (lit ";base64,") with (lit ";base64" ++ [comma]).
    replace (lit "data:" ++ type ++ (lit ";base64" ++ [comma]) ++ payload)
      with ((lit "data:" ++ type ++ lit ";base64") ++ comma :: payload)
      by (now rewrite <- !app_assoc).
    rewrite split_at_first.
    + rewrite split_without by assumption. reflexivity.
    + rewrite !in_app_iff. intros [H|[H|H]]; [|tauto|];
        vm_compute in H; intuition discriminate.
  - now rewrite split_without.
Qed.

Lemma base64_part_of_dataURL_witness :
  base64_part (dataURL (lit "audio/webm") (lit "UklGRg==")) = Some (lit "UklGRg==").
Proof.
  refine (proj1 (base64_part_of_dataURL (lit "audio/webm") (lit "UklGRg==") _ _));
    vm_compute; intuition discriminate.
Defined.

End VoiceMore.

(** * The candidate form *)

Section Form.
Import JS JSMore CandidatePage Cases.

(** X25: the multipart body of the candidate form always starts with
    [name], [email] and [job_role], in this order; [linkedin_url] and
    [github_url] are part of it exactly when the field is not empty, and
    [resume] exactly when a file was chosen; no part name occurs twice. *)
Theorem formDataToSend_parts :
  forall (st : State),
    let names := map fst (formDataToSend st) in
    take 3 names = ["name"; "email"; "job_role"]
    /\ (In "linkedin_url" names <-> f_linkedinUrl (formData st) <> [])
    /\ (In "github_url" names <-> f_githubUrl (formData st) <> [])
    /\ (In "resume" names <-> resumeFile st <> None)
    /\ NoDup names
    /\ (forall k, In (k, Text []) (formDataToSend st) ->
        k = "name" \/ k = "email" \/ k = "job_role").
Proof.
  intros st. cbv zeta. unfold formDataToSend.
  destruct (f_linkedinUrl (formData st)) as [|a l];
    destruct (f_githubUrl (formData st)) as [|b g];
    destruct (resumeFile st) as [file|]; simpl.
  all: split; [reflexivity|].
  all: split; [split; [intros H; decompose [or] H; try discriminate; try contradiction
                      | intros H; try (now contradiction H); tauto]|].
  all: split; [split; [intros H; decompose [or] H; try discriminate; try contradiction
                      | intros H; try (now contradiction H); tauto]|].
  all: split; [split; [intros H; decompose [or] H; try discriminate; try contradiction
                      | intros H; try (now contradiction H); tauto]|].
  all: split; [apply (bool_decide_unpack _); vm_compute; exact I|].
  all: intros k H; decompose [or] H; try contradiction;
    match goal with E : (_, _) = (k, _) |- _ => injection E as <- end; auto;
    discriminate.
Qed.

(** X26: [handleSubmit] always posts the form and always ends not
    loading.  Only an [ok] answer whose body parses marks the submission
    a success: the candidate id is stored, no error is shown and the
    redirect to the chat of that candidate is scheduled two seconds
    later.  In every other case an error message is recorded, nothing
    is scheduled, and neither the success mark nor the candidate id
    changes. *)
Theorem handleSubmit_outcomes :
  forall (res : response str) (st : State),
    let st' := fst (handleSubmit res st) in
    let es := snd (handleSubmit res st) in
    isLoading st' = false
    /\ take 2 es = [PreventDefault; PostCandidate (formDataToSend st)]
    /\ formData st' = formData st
    /\ (forall id, res = Answer true (Json id) ->
        success st' = true /\ candidateId st' = Some id /\ error st' = None
        /\ es = [PreventDefault; PostCandidate (formDataToSend st);
                 PushLater 2000 (lit "/chat?candidateId=" ++ id)])
    /\ (delivered res = false ->
        error st' <> None /\ success st' = success st
        /\ candidateId st' = candidateId st
        /\ es = [PreventDefault; PostCandidate (formDataToSend st)]).
Proof.
  intros res st. cbv zeta. unfold handleSubmit. destruct st.
  destruct res as [m|[|] [m|id]]; simpl.
  all: split; [reflexivity|]; split; [reflexivity|]; split; [reflexivity|].
  all: split;
    [ intros id' Heq; try discriminate; injection Heq as <-; auto
    | intros Hnot; try discriminate; repeat split; auto; discriminate ].
Qed.

Lemma handleSubmit_outcomes_witness :
  snd (handleSubmit (Answer true (Json (lit "c1"))) form_filled) =
    [PreventDefault; PostCandidate (formDataToSend form_filled);
     PushLater 2000 (lit "/chat?candidateId=c1")]
  /\ error (fst (handleSubmit (Answer false (Malformed [])) form_filled)) <> None.
Proof.
  split.
  - pose proof (handleSubmit_outcomes (Answer true (Json (lit "c1"))) form_filled) as H.
    cbv zeta in H. destruct H as (_ & _ & _ & Hok & _).
    exact (proj2 (proj2 (proj2 (Hok (lit "c1") eq_refl)))).
  - pose proof (handleSubmit_outcomes (Answer false (Malformed [])) form_filled) as H.
    cbv zeta in H. destruct H as (_ & _ & _ & _ & Hfail).
    exact (proj1 (Hfail eq_refl)).
Defined.

(** X27: what is typed reaches the body that is posted.  After
    [handleInputChange] on a field, the posted part of that field is the
    new text (for the two optional fields when it is not empty), and the
    parts of the other fields are what they were. *)
Theorem typed_fields_are_posted :
  forall (k : field) (v : str) (st : State),
    let sent := formDataToSend (handleInputChange k v st) in
    let part_of (k' : field) : string :=
      match k' with
      | name => "name" | email => "email" | jobRole => "job_role"
      | linkedinUrl => "linkedin_url" | githubUrl => "github_url"
      end in
    (v <> [] -> In (part_of k, Text v) sent)
    /\ (forall k' p, k' <> k ->
        (In (part_of k', p) sent <-> In (part_of k', p) (formDataToSend st)))
    /\ (forall p, In ("resume", p) sent <-> In ("resume", p) (formDataToSend st)).
Proof.
  intros k v st. cbv zeta. unfold formDataToSend, handleInputChange.
  destruct st as [a b c d [n e j l g] r]. simpl.
  split; [|split].
  - intros Hv. destruct v as [|x v]; [contradiction|].
    destruct k; simpl; rewrite ?in_app_iff; simpl; auto 8.
  - intros k' p Hne.
    destruct k, k'; try contradiction; simpl;
      destruct v, l, g, r; simpl; rewrite ?in_app_iff; simpl;
      split; intros H; decompose [or] H; try contradiction; try discriminate;
      auto 10.
  - intros p.
    destruct k; simpl; destruct v, l, g, r; simpl; rewrite ?in_app_iff; simpl;
      split; intros H; decompose [or] H; try contradiction; try discriminate;
      auto 10.
Qed.

Lemma typed_fields_are_posted_witness :
  In ("github_url", Text (lit "https://github.com/ada")) (formDataToSend form_filled).
Proof.
  refine (proj1 (typed_fields_are_posted githubUrl (lit "https://github.com/ada") _) _).
  discriminate.
Defined.

End Form.
